(** * ADB-Connect-Map: the device registry, its reconciliation and the menu

    A shallow embedding of [adb_connect_map.py].  Text is a [string] whose
    characters are code points below 256; the bridge tool, the registry
    file, the keyboard and the mirroring process are explicit components
    of a program state threaded through an error-and-state monad.
    Console messages are not modelled (the exceptions that building a
    message can raise are). *)

From Stdlib Require Import String Ascii List ZArith Bool Lia.
Import ListNotations.
Open Scope string_scope.

Set Implicit Arguments.

(** ** Python's [str] operations used by the program *)

Module PyStr.

Definition TAB : ascii := "009"%char.
Definition LF : ascii := "010"%char.
Definition CR : ascii := "013"%char.

Definition tab : string := String TAB "".
Definition nl : string := String LF "".

Definition code (c : ascii) : nat := nat_of_ascii c.

(** [str.isspace] on one character (code points below 256). *)
Definition is_space (c : ascii) : bool :=
  let n := code c in
  (((9 <=? n) && (n <=? 13)) || ((28 <=? n) && (n <=? 32))
   || (n =? 133) || (n =? 160))%nat.

(** The line boundaries of [str.splitlines] (code points below 256). *)
Definition is_linebreak (c : ascii) : bool :=
  let n := code c in
  (((10 <=? n) && (n <=? 13)) || ((28 <=? n) && (n <=? 30))
   || (n =? 133))%nat.

Definition is_digit (c : ascii) : bool :=
  let n := code c in ((48 <=? n) && (n <=? 57))%nat.

Definition is_empty (s : string) : bool :=
  match s with EmptyString => true | String _ _ => false end.

(** The blanks [int] skips around a literal: the ASCII ones of C and,
    above, the Unicode ones; the separators 28 to 31 are not among them. *)
Definition is_int_space (c : ascii) : bool :=
  let n := code c in
  (((9 <=? n) && (n <=? 13)) || (n =? 32) || (n =? 133) || (n =? 160))%nat.

Section Strip.
Variable blank : ascii -> bool.

Fixpoint lstrip_by (s : string) : string :=
  match s with
  | EmptyString => EmptyString
  | String c s' => if blank c then lstrip_by s' else s
  end.

Fixpoint rstrip_by (s : string) : string :=
  match s with
  | EmptyString => EmptyString
  | String c s' =>
      let r := rstrip_by s' in
      if blank c && is_empty r then EmptyString else String c r
  end.

Definition strip_by (s : string) : string := rstrip_by (lstrip_by s).
End Strip.

(** [s.strip()] *)
Definition strip (s : string) : string := strip_by is_space s.

(** [s.split(sep)] for a one-character separator: empty fields are kept
    and the result is never empty. *)
Fixpoint split_on (sep : ascii) (s : string) : list string :=
  match s with
  | EmptyString => [EmptyString]
  | String c s' =>
      if Ascii.eqb c sep then EmptyString :: split_on sep s'
      else match split_on sep s' with
           | h :: t => String c h :: t
           | [] => [String c EmptyString]
           end
  end.

(** [s.split()]: fields are the maximal runs of non-space characters. *)
Fixpoint split_ws (s : string) : list string :=
  match s with
  | EmptyString => []
  | String c s' =>
      if is_space c then split_ws s'
      else match s' with
           | EmptyString => [String c EmptyString]
           | String c' _ =>
               if is_space c' then String c EmptyString :: split_ws s'
               else match split_ws s' with
                    | h :: t => String c h :: t
                    | [] => [String c EmptyString]
                    end
           end
  end.

(** [s.splitlines()]: a carriage return followed by a line feed is one
    boundary, and a final boundary opens no empty last line. *)
Fixpoint splitlines (s : string) : list string :=
  match s with
  | EmptyString => []
  | String c s' =>
      if is_linebreak c then
        match s' with
        | String c' s'' =>
            if Ascii.eqb c CR && Ascii.eqb c' LF
            then EmptyString :: splitlines s''
            else EmptyString :: splitlines s'
        | EmptyString => [EmptyString]
        end
      else match splitlines s' with
           | h :: t => String c h :: t
           | [] => [String c EmptyString]
           end
  end.

(** [sub in s] *)
Fixpoint str_in (sub s : string) : bool :=
  String.prefix sub s
  || match s with
     | EmptyString => false
     | String _ s' => str_in sub s'
     end.

(** The longest prefix of digits, and what follows it. *)
Fixpoint span_digits (s : string) : string * string :=
  match s with
  | EmptyString => (EmptyString, EmptyString)
  | String c s' =>
      if is_digit c
      then let (d, r) := span_digits s' in (String c d, r)
      else (EmptyString, s)
  end.

(** One [\d{1,3}] group followed by the literal [sep].  A digit can be
    neither separator, so the greedy choice is the only one that can
    succeed and no backtracking is lost. *)
Definition octet_then (sep : ascii) (s : string) : option string :=
  let (d, r) := span_digits s in
  let n := String.length d in
  if ((1 <=? n) && (n <=? 3))%nat then
    match r with
    | String c r' => if Ascii.eqb c sep then Some r' else None
    | EmptyString => None
    end
  else None.

(** [\d+$]: [$] matches at the end of the text and before a final line
    feed. *)
Definition port_to_end (s : string) : bool :=
  let (d, r) := span_digits s in
  negb (is_empty d) && (is_empty r || String.eqb r nl).

(** [re.match(r'^\d{1,3}(\.\d{1,3}){3}:\d+$', s)] as a truth value. *)
Definition is_ip_port (s : string) : bool :=
  match octet_then "." s with
  | Some s1 =>
      match octet_then "." s1 with
      | Some s2 =>
          match octet_then "." s2 with
          | Some s3 =>
              match octet_then ":" s3 with
              | Some s4 => port_to_end s4
              | None => false
              end
          | None => false
          end
      | None => false
      end
  | None => false
  end.

Definition digit_val (c : ascii) : Z := Z.of_nat (code c) - 48.

(** The digits of a decimal literal, where single underscores may
    separate digits; [after_digit] says whether the previous character
    was a digit, [acc] is the value read so far. *)
Fixpoint digits_value (after_digit : bool) (acc : Z) (s : string) : option Z :=
  match s with
  | EmptyString => if after_digit then Some acc else None
  | String c s' =>
      if is_digit c then digits_value true (10 * acc + digit_val c) s'
      else if Ascii.eqb c "_" && after_digit then
        match s' with
        | String c' _ => if is_digit c' then digits_value false acc s' else None
        | EmptyString => None
        end
      else None
  end.

(** [int(s)] in base ten; [None] stands for [ValueError]. *)
Definition int_of_str (s : string) : option Z :=
  match strip_by is_int_space s with
  | String "+" r => digits_value false 0 r
  | String "-" r => option_map Z.opp (digits_value false 0 r)
  | r => digits_value false 0 r
  end.

End PyStr.

Import PyStr.

(** ** Values, records and the registry *)

(** A field of a record is a string or [None] (JSON [null]); the program
    itself stores [None] as an address. *)
Inductive pyval : Type :=
| PyNone
| PyStr (s : string).

Definition pyval_eqb (a b : pyval) : bool :=
  match a, b with
  | PyNone, PyNone => true
  | PyStr x, PyStr y => String.eqb x y
  | _, _ => false
  end.

(** Truth value of a field: [None] and the empty string are false. *)
Definition truthy (v : pyval) : bool :=
  match v with
  | PyNone => false
  | PyStr s => negb (is_empty s)
  end.

(** A value inside an f-string. *)
Definition fmt (v : pyval) : string :=
  match v with
  | PyNone => "None"
  | PyStr s => s
  end.

(** Truth value of a command's output ([Optional[str]]). *)
Definition truthy_text (o : option string) : bool :=
  match o with
  | Some s => negb (is_empty s)
  | None => false
  end.

(** [o or ""] *)
Definition text_of (o : option string) : string :=
  match o with
  | Some s => s
  | None => ""
  end.

(** Python dicts keep insertion order: an association list in which
    storing under a present key replaces the value in place and storing
    under a new key appends. *)
Section Dict.
Variables K V : Type.
Variable keq : K -> K -> bool.

Fixpoint dict_lookup (d : list (K * V)) (k : K) : option V :=
  match d with
  | [] => None
  | (k', v) :: rest => if keq k' k then Some v else dict_lookup rest k
  end.

Fixpoint dict_store (d : list (K * V)) (k : K) (v : V) : list (K * V) :=
  match d with
  | [] => [(k, v)]
  | (k', v') :: rest =>
      if keq k' k then (k', v) :: rest else (k', v') :: dict_store rest k v
  end.
End Dict.

Definition device_record : Type := list (string * pyval).
Definition registry : Type := list device_record.

(** [d.get(k)] *)
Definition get (d : device_record) (k : string) : pyval :=
  match dict_lookup String.eqb d k with
  | Some v => v
  | None => PyNone
  end.

(** [d.get(k, default)]: the default stands in for a missing key only. *)
Definition get_default (d : device_record) (k : string) (default : pyval) : pyval :=
  match dict_lookup String.eqb d k with
  | Some v => v
  | None => default
  end.

(** [d[k] = v] *)
Definition setitem (d : device_record) (k : string) (v : pyval) : device_record :=
  dict_store String.eqb d k v.

Definition includes (d1 d2 : device_record) : bool :=
  forallb (fun kv => match dict_lookup String.eqb d2 (fst kv) with
                     | Some v => pyval_eqb v (snd kv)
                     | None => false
                     end) d1.

(** [d1 == d2] on dicts: the same keys with equal values, in any order. *)
Definition dict_eqb (d1 d2 : device_record) : bool :=
  includes d1 d2 && includes d2 d1.

(** [l[i] = x] for an index inside the list. *)
Fixpoint list_set (A : Type) (l : list A) (i : nat) (x : A) : list A :=
  match l, i with
  | [], _ => []
  | _ :: t, O => x :: t
  | h :: t, S j => h :: list_set t j x
  end.

(** ** Exceptions *)

Inductive exn : Type :=
| IndexError
| KeyError (key : string)
| TypeError
| EOFError
| SystemExit.

Inductive result (A : Type) : Type :=
| Ok (a : A)
| Raise (e : exn).

Arguments Ok {A} a.
Arguments Raise {A} e.

Definition rbind (A B : Type) (r : result A) (k : A -> result B) : result B :=
  match r with
  | Ok a => k a
  | Raise e => Raise e
  end.

Notation "x <~ c ;; k" := (rbind c (fun x => k))
  (at level 61, c at next level, right associativity).

(** [l[i]] for a non-negative index. *)
Definition item (A : Type) (l : list A) (i : nat) : result A :=
  match nth_error l i with
  | Some x => Ok x
  | None => Raise IndexError
  end.

(** [l[i]] for any integer: a negative index counts from the end. *)
Definition py_item (A : Type) (l : list A) (i : Z) : result A :=
  let n := Z.of_nat (length l) in
  if (0 <=? i)%Z then item l (Z.to_nat i)
  else if (0 <=? n + i)%Z then item l (Z.to_nat (n + i))
  else Raise IndexError.

(** [d[k]] *)
Definition getitem (d : device_record) (k : string) : result pyval :=
  match dict_lookup String.eqb d k with
  | Some v => Ok v
  | None => Raise (KeyError k)
  end.

(** [x in line] where [x] is a field: [None in line] is a type error. *)
Definition py_in (x : pyval) (line : string) : result bool :=
  match x with
  | PyStr s => Ok (str_in s line)
  | PyNone => Raise TypeError
  end.

(** ** The scans of a device listing *)

(** The loop of [get_device_connection_type]. *)
Fixpoint connection_scan (serial : pyval) (lines : list string) : result string :=
  match lines with
  | [] => Ok "offline"
  | line :: rest =>
      found <~ py_in serial line;;
      if found then
        if str_in ":5555" line then Ok "wifi" else Ok "usb"
      else connection_scan serial rest
  end.

(** The loop of [get_device_status]. *)
Fixpoint status_scan (serial : string) (lines : list string) : result string :=
  match lines with
  | [] => Ok "offline"
  | line :: rest =>
      if str_in serial line then item (split_on TAB line) 1
      else status_scan serial rest
  end.

(** The loop of [is_device_authorized]: a matching line with another
    status than the two named ones lets the scan go on. *)
Fixpoint authorized_scan (serial : pyval) (lines : list string) : result bool :=
  match lines with
  | [] => Ok false
  | line :: rest =>
      found <~ py_in serial line;;
      if found then
        status <~ item (split_on TAB line) 1;;
        if status =? "device" then Ok true
        else if status =? "unauthorized" then Ok false
        else authorized_scan serial rest
      else authorized_scan serial rest
  end.

(** [ip_address.split()[1].split('/')[0]] *)
Definition address_of (ip_address : string) : result string :=
  token <~ item (split_ws ip_address) 1;;
  item (split_on "/" token) 0.

(** The key of the dict comprehension that indexes the registry: a later
    record with the same serial takes the entry over. *)
Definition index : Type := list (pyval * nat).

Fixpoint index_from (idx : nat) (devices : registry) (acc : index) : result index :=
  match devices with
  | [] => Ok acc
  | d :: rest =>
      serial <~ getitem d "serial";;
      index_from (S idx) rest (dict_store pyval_eqb acc serial idx)
  end.

Definition build_index (devices : registry) : result index :=
  index_from 0 devices [].

(** [next((device for device in devices if device['serial'] == serial), None)] *)
Fixpoint find_by_serial (devices : registry) (serial : string) : result (option device_record) :=
  match devices with
  | [] => Ok None
  | d :: rest =>
      s <~ getitem d "serial";;
      if pyval_eqb s (PyStr serial) then Ok (Some d) else find_by_serial rest serial
  end.

(** [name or model or serial] of the notice for a skipped device. *)
Definition display_name (existing_device : option device_record) (serial : string) : pyval :=
  match existing_device with
  | Some d =>
      if truthy (get d "name") then get d "name"
      else if truthy (get d "model") then get d "model"
      else PyStr serial
  | None => PyStr serial
  end.

(** The label of a menu line: [name or model or device["serial"]]. *)
Definition device_label (d : device_record) : result pyval :=
  if truthy (get d "name") then Ok (get d "name")
  else if truthy (get d "model") then Ok (get d "model")
  else getitem d "serial".

(** The loop that prints the menu: only its exceptions are kept. *)
Fixpoint print_listing (devices : list device_record) : result unit :=
  match devices with
  | [] => Ok tt
  | d :: rest =>
      _ <~ device_label d;;
      _ <~ getitem d "serial";;
      print_listing rest
  end.

(** ** The text of the registry file: [json.dump(device_map, f, indent=4)] *)

Module Json.

Definition DQUOTE : ascii := "034"%char.
Definition BACKSLASH : ascii := "092"%char.

Definition hex_digit (n : nat) : string :=
  String.substring n 1 "0123456789abcdef".

(** One character of a string literal ([ensure_ascii] is on): only the
    printable ASCII characters other than the quote and the backslash are
    written as they are. *)
Definition escape_char (c : ascii) : string :=
  let n := code c in
  if Ascii.eqb c DQUOTE then String BACKSLASH (String DQUOTE "")
  else if Ascii.eqb c BACKSLASH then String BACKSLASH (String BACKSLASH "")
  else if (n =? 10)%nat then String BACKSLASH "n"
  else if (n =? 13)%nat then String BACKSLASH "r"
  else if (n =? 9)%nat then String BACKSLASH "t"
  else if (n =? 12)%nat then String BACKSLASH "f"
  else if (n =? 8)%nat then String BACKSLASH "b"
  else if ((32 <=? n) && (n <=? 126))%nat then String c ""
  else String BACKSLASH "u00" ++ hex_digit (n / 16) ++ hex_digit (n mod 16).

Fixpoint escape (s : string) : string :=
  match s with
  | EmptyString => EmptyString
  | String c s' => escape_char c ++ escape s'
  end.

Definition literal (s : string) : string :=
  String DQUOTE (escape s) ++ String DQUOTE "".

Definition value (v : pyval) : string :=
  match v with
  | PyNone => "null"
  | PyStr s => literal s
  end.

Definition member (kv : string * pyval) : string :=
  "            " ++ literal (fst kv) ++ ": " ++ value (snd kv).

Definition object (d : device_record) : string :=
  match d with
  | [] => "{}"
  | _ => "{" ++ nl ++ String.concat ("," ++ nl) (map member d)
         ++ nl ++ "        }"
  end.

Definition array (r : registry) : string :=
  match r with
  | [] => "[]"
  | _ => "[" ++ nl
         ++ String.concat ("," ++ nl) (map (fun d => "        " ++ object d) r)
         ++ nl ++ "    ]"
  end.

(** The whole file, for the map [{"devices": r}]. *)
Definition dump (r : registry) : string :=
  "{" ++ nl ++ "    " ++ literal "devices" ++ ": " ++ array r ++ nl ++ "}".

End Json.

(** ** The program state and its monad *)

(** What the program does to the outside: a bridge command it ran, or the
    mirroring process it started for a serial. *)
Inductive event : Type :=
| Adb (command : string)
| Scrcpy (serial : string).

Section Program.

(** The world behind the bridge tool; [run] executes a shell command in it
    and gives the decoded output, or [None] when the command exits with a
    non-zero status. *)
Variable World : Type.
Variable run : string -> World -> option string * World.

(** [device_map_json] is the parsed content of [device_map.json] ([None]
    when the file does not exist, otherwise the list under ["devices"]),
    [stdin] the lines still to be typed, [journal] the commands run so
    far. *)
Record state : Type := mkState {
  world : World;
  journal : list event;
  device_map_json : option registry;
  stdin : list string
}.

Definition M (A : Type) : Type := state -> result A * state.

Definition ret (A : Type) (a : A) : M A := fun st => (Ok a, st).

Definition raise {A : Type} (e : exn) : M A := fun st => (Raise e, st).

Definition bind (A B : Type) (m : M A) (k : A -> M B) : M B :=
  fun st =>
    match m st with
    | (Ok a, st') => k a st'
    | (Raise e, st') => (Raise e, st')
    end.

Definition lift (A : Type) (r : result A) : M A := fun st => (r, st).

Notation "x <- c ;; k" := (bind c (fun x => k))
  (at level 61, c at next level, right associativity).

(** ** Bridge Query Adapter *)

(** [run] stands for [check_output] and the decoding of its output (lines
    23 and 24): the output is taken to be UTF-8 text of code points below
    256, so the [UnicodeDecodeError] line 24 can raise is outside the
    model, as is an exception of [check_output] other than
    [CalledProcessError].  The command is a [string], which every call in
    the program passes, so the [ValueError] of line 20 does not arise. *)
Definition adb_command (command : string) : M (option string) :=
  fun st =>
    let (out, w) := run command st.(world) in
    (Ok (option_map strip out),
     mkState w (st.(journal) ++ [Adb command]) st.(device_map_json) st.(stdin)).

(** [subprocess.run(["scrcpy", "-s", serial], ...)]: an argument that is
    not a string is a type error. *)
Definition scrcpy (serial : pyval) : M unit :=
  match serial with
  | PyStr s =>
      fun st =>
        (Ok tt, mkState st.(world) (st.(journal) ++ [Scrcpy s])
                        st.(device_map_json) st.(stdin))
  | PyNone => raise TypeError
  end.

(** [json.load] of the registry file, or the empty registry. *)
Definition load_device_map : M registry :=
  fun st =>
    match st.(device_map_json) with
    | Some r => (Ok r, st)
    | None => (Ok [], st)
    end.

(** [json.dump] into the registry file. *)
Definition save_device_map (r : registry) : M unit :=
  fun st => (Ok tt, mkState st.(world) st.(journal) (Some r) st.(stdin)).

(** [input()]: the next line typed, [EOFError] when there is none. *)
Definition input : M string :=
  fun st =>
    match st.(stdin) with
    | line :: rest =>
        (Ok line, mkState st.(world) st.(journal) st.(device_map_json) rest)
    | [] => (Raise EOFError, st)
    end.

(** ** Connection medium, address and facts *)

Definition get_device_connection_type (serial : pyval) : M string :=
  devices_list <- adb_command "adb devices -l";;
  if truthy_text devices_list
  then lift (connection_scan serial (splitlines (text_of devices_list)))
  else ret "offline".

Definition ip_query (serial : string) : string :=
  "adb -s " ++ serial ++ " shell ip addr show wlan0 | grep inet".

Definition getprop_query (serial key : string) : string :=
  "adb -s " ++ serial ++ " shell getprop " ++ key.

Definition get_device_ip (serial : string) : M (option string) :=
  ip_address <- adb_command (ip_query serial);;
  if truthy_text ip_address
  then (a <- lift (address_of (text_of ip_address));; ret (Some a))
  else ret None.

Definition opt_val (o : option string) : pyval :=
  match o with
  | Some s => PyStr s
  | None => PyNone
  end.

Definition get_device_info (serial : string) : M (option device_record) :=
  model <- adb_command (getprop_query serial "ro.product.model");;
  device_type <- adb_command (getprop_query serial "ro.product.device");;
  serial_number <- adb_command (getprop_query serial "ro.serialno");;
  connection_type <- get_device_connection_type (PyStr serial);;
  ip_address <- (if connection_type =? "wifi"
                 then get_device_ip serial else ret None);;
  let ip_address := if connection_type =? "usb" then None else ip_address in
  if truthy_text model && truthy_text device_type && truthy_text serial_number
  then ret (Some [("model", opt_val model);
                  ("device_type", opt_val device_type);
                  ("serial_number", opt_val serial_number);
                  ("ip_address", opt_val ip_address)])
  else ret None.

Definition get_device_status (serial : string) : M string :=
  devices_list <- adb_command "adb devices";;
  if truthy_text devices_list
  then lift (status_scan serial (splitlines (text_of devices_list)))
  else ret "offline".

(** ** Registry Reconciler *)

(** The body run for a serial already in the registry.  The record is
    changed in place in the source (the final store at its index puts the
    same object back), so the record returned here is the one the registry
    holds afterwards. *)
Definition update_known (serial status : string) (device : device_record) : M device_record :=
  device <- (if truthy (get device "model") then ret device
             else
               out <- adb_command (getprop_query serial "ro.product.model");;
               ret (setitem device "model" (PyStr (text_of out))));;
  device <- (if truthy (get device "device_type") then ret device
             else
               out <- adb_command (getprop_query serial "ro.product.device");;
               ret (setitem device "device_type" (PyStr (text_of out))));;
  connection_type <- get_device_connection_type (PyStr serial);;
  device <- (if (connection_type =? "wifi")
                && negb (truthy (get device "ip_address"))
             then
               out <- adb_command (ip_query serial);;
               let ip_address := text_of out in
               if negb (is_empty ip_address)
               then
                 a <- lift (address_of ip_address);;
                 ret (setitem device "ip_address" (PyStr a))
               else ret device
             else ret device);;
  let device :=
    if (connection_type =? "usb") && negb (truthy (get device "ip_address"))
    then setitem device "ip_address" (PyStr "")
    else device in
  let device :=
    if negb (pyval_eqb (get device "status") (PyStr status))
    then setitem device "status" (PyStr status)
    else device in
  ret device.

(** The record appended for a serial seen for the first time. *)
Definition new_device (serial status : string) (device_info : device_record) : device_record :=
  [("name", PyStr "");
   ("serial", PyStr serial);
   ("model", get_default device_info "model" (PyStr ""));
   ("device_type", get_default device_info "device_type" (PyStr ""));
   ("ip_address", get_default device_info "ip_address" (PyStr ""));
   ("status", PyStr status)].

(** The two branches on the status of a live serial. *)
Definition reconcile_device (serial status : string)
  (device_map : registry) (device_index : index) : M (registry * index) :=
  if status =? "device" then
    match dict_lookup pyval_eqb device_index (PyStr serial) with
    | Some idx =>
        device <- lift (item device_map idx);;
        device <- update_known serial status device;;
        ret (list_set device_map idx device, device_index)
    | None =>
        device_info <- get_device_info serial;;
        match device_info with
        | Some info =>
            let device_map := (device_map ++ [new_device serial status info])%list in
            ret (device_map,
                 dict_store pyval_eqb device_index (PyStr serial)
                            (length device_map - 1))
        | None => ret (device_map, device_index)
        end
    end
  else
    existing_device <- lift (find_by_serial device_map serial);;
    let _ := display_name existing_device serial in
    ret (device_map, device_index).

(** One line of the live listing. *)
Definition reconcile_line (line : string)
  (device_map : registry) (device_index : index) : M (registry * index) :=
  if negb (is_empty (strip line))
     && negb (strip line =? "List of devices attached")
  then
    serial <- lift (item (split_on TAB line) 0);;
    let serial := if is_ip_port serial then "" else serial in
    if is_empty serial then ret (device_map, device_index)
    else
      status <- get_device_status serial;;
      reconcile_device serial status device_map device_index
  else ret (device_map, device_index).

Fixpoint reconcile_lines (lines : list string)
  (device_map : registry) (device_index : index) : M (registry * index) :=
  match lines with
  | [] => ret (device_map, device_index)
  | line :: rest =>
      p <- reconcile_line line device_map device_index;;
      reconcile_lines rest (fst p) (snd p)
  end.

Definition update_device_map : M unit :=
  devices_list <- adb_command "adb devices";;
  device_map <- load_device_map;;
  device_index <- lift (build_index device_map);;
  p <- (if truthy_text devices_list
        then reconcile_lines (splitlines (text_of devices_list))
                             device_map device_index
        else ret (device_map, device_index));;
  save_device_map (fst p).

(** ** Authorization Check *)

Definition is_device_authorized (serial : pyval) : M bool :=
  devices_list <- adb_command "adb devices";;
  if truthy_text devices_list
  then lift (authorized_scan serial (splitlines (text_of devices_list)))
  else ret false.

(** ** Selection Menu *)

(** What the menu does with the integer typed, when it is in range. *)
Definition select (devices : list device_record) (choice : Z) : M Z :=
  selected_device <- lift (py_item devices (choice - 1));;
  serial <- lift (getitem selected_device "serial");;
  authorized <- is_device_authorized serial;;
  if negb authorized then ret 0%Z else ret choice.

(** The menu re-invokes itself on a bad line; each call reads one line, so
    the recursion is on the lines still to be typed, [pending].  The depth
    of calls the interpreter allows is outside the model: after about a
    thousand rejected lines in a row the source raises [RecursionError],
    where this function goes on reading. *)
Fixpoint menu (pending : list string) (devices : list device_record) : M Z :=
  _ <- lift (print_listing devices);;
  text <- input;;
  match pending with
  | [] => raise EOFError
  | _ :: rest =>
      match int_of_str text with
      | Some choice =>
          if ((0 <=? choice) && (choice <=? Z.of_nat (length devices)))%Z
          then select devices choice
          else menu rest devices
      | None => menu rest devices
      end
  end.

Definition display_device_menu (devices : list device_record) : M Z :=
  fun st => menu st.(stdin) devices st.

(** ** Session Launcher *)

(** The loop over the listed devices that precedes the connection. *)
Fixpoint disconnect_others (devices : list device_record) (selected_device : device_record)
  : M unit :=
  match devices with
  | [] => ret tt
  | device :: rest =>
      _ <- (if negb (dict_eqb device selected_device)
            then
              serial <- lift (getitem device "serial");;
              _ <- lift (getitem device "name");;
              _ <- adb_command ("adb -s " ++ fmt serial ++ " disconnect");;
              ret tt
            else ret tt);;
      disconnect_others rest selected_device
  end.

(** The comprehension that keeps the records whose status is [device]. *)
Fixpoint connected (devices : registry) : result (list device_record) :=
  match devices with
  | [] => Ok []
  | d :: rest =>
      status <~ getitem d "status";;
      kept <~ connected rest;;
      Ok (if pyval_eqb status (PyStr "device") then d :: kept else kept)
  end.

(** The part of [main] that follows a choice other than 0; it ends with
    [sys.exit()]. *)
Definition launch (devices : list device_record) (choice : Z) : M unit :=
  selected_device <- lift (py_item devices (choice - 1));;
  _ <- disconnect_others devices selected_device;;
  serial <- lift (getitem selected_device "serial");;
  connection_type <- get_device_connection_type serial;;
  _ <- (if connection_type =? "wifi" then
          ip <- lift (getitem selected_device "ip_address");;
          _ <- adb_command ("adb connect " ++ fmt ip ++ ":5555");;
          ret tt
        else if connection_type =? "usb" then
          _ <- adb_command ("adb -s " ++ fmt serial ++ " usb");;
          ret tt
        else ret tt);;
  _ <- scrcpy serial;;
  raise SystemExit.

(** [main]: the loop body ends with [sys.exit()], so it runs at most once.
    The file is read back after the pass wrote it; were it absent the
    source would return, as it does on an empty list. *)
Definition main : M unit :=
  _ <- update_device_map;;
  device_map <- load_device_map;;
  devices <- lift (connected device_map);;
  match devices with
  | [] => ret tt
  | _ =>
      choice <- display_device_menu devices;;
      if (choice =? 0)%Z then ret tt else launch devices choice
  end.

(** ** Specifications of programs in the monad *)

(** Whatever [m] returns satisfies [Q]. *)
Definition ensures (A : Type) (m : M A) (Q : A -> Prop) : Prop :=
  forall st a st', m st = (Ok a, st') -> Q a.

(** [m] does not write the registry file. *)
Definition keeps_file (A : Type) (m : M A) : Prop :=
  forall st, device_map_json (snd (m st)) = device_map_json st.

(** The lines of the flat listing a query made in state [st] reads. *)
Definition flat_listing (st : state) : list string :=
  splitlines (text_of (option_map strip (fst (run "adb devices" st.(world))))).

(** The status field of a listing line, when the line has one. *)
Definition status_field (line : string) : option string :=
  nth_error (split_on TAB line) 1.

(** The command the launcher runs for a device that is not the selected
    one. *)
Definition disconnect_of (d : device_record) : event :=
  Adb ("adb -s " ++ fmt (get d "serial") ++ " disconnect").

End Program.

Arguments mkState {World} world journal device_map_json stdin.

(** ** Scripted bridges: concrete worlds on which the program is run *)

(** A bridge whose answers are fixed: a command listed in [table] prints
    its text and exits with status 0, any other command fails. *)
Definition scripted (table : list (string * string))
  (command : string) (w : unit) : option string * unit :=
  (dict_lookup String.eqb table command, w).

Definition start (file : option registry) (typed : list string) : state unit :=
  mkState tt [] file typed.

(** The registry a state holds: the file's list, or the empty registry
    that stands for an absent file. *)
Definition registry_of (World : Type) (st : state World) : registry :=
  match st.(device_map_json) with
  | Some r => r
  | None => []
  end.

(** One authorized device on a cable. *)
Definition wired_bridge : list (string * string) :=
  [("adb devices",
    "List of devices attached" ++ nl ++ "ABC123" ++ tab ++ "device" ++ nl ++ nl);
   ("adb devices -l",
    "List of devices attached" ++ nl
    ++ "ABC123                 device usb:1-1 product:panther model:Pixel_7 device:panther transport_id:1"
    ++ nl ++ nl);
   (getprop_query "ABC123" "ro.product.model", "Pixel7" ++ nl);
   (getprop_query "ABC123" "ro.product.device", "panther" ++ nl);
   (getprop_query "ABC123" "ro.serialno", "ABC123" ++ nl)].

Definition abc123 (ip_address : pyval) : device_record :=
  [("name", PyStr ""); ("serial", PyStr "ABC123"); ("model", PyStr "Pixel7");
   ("device_type", PyStr "panther"); ("ip_address", ip_address);
   ("status", PyStr "device")].

(** Two authorized devices, both on a cable. *)
Definition two_wired_bridge : list (string * string) :=
  [("adb devices",
    "List of devices attached" ++ nl ++ "USB1" ++ tab ++ "device" ++ nl
    ++ "USB2" ++ tab ++ "device" ++ nl ++ nl);
   ("adb devices -l",
    "List of devices attached" ++ nl
    ++ "USB1                   device usb:1-1 product:panther model:Pixel_7 device:panther transport_id:1"
    ++ nl
    ++ "USB2                   device usb:1-2 product:oriole model:Pixel_6 device:oriole transport_id:2"
    ++ nl ++ nl)].

Definition usb_record (name serial model device_type : string) : device_record :=
  [("name", PyStr name); ("serial", PyStr serial); ("model", PyStr model);
   ("device_type", PyStr device_type); ("ip_address", PyStr "");
   ("status", PyStr "device")].

Definition two_wired_registry : registry :=
  [usb_record "Desk" "USB1" "Pixel7" "panther";
   usb_record "Lab" "USB2" "Pixel6" "oriole"].

(** A listing in which the serial [ABC] also occurs inside the longer
    serial of an unauthorized device listed first. *)
Definition overlapping_bridge : list (string * string) :=
  [("adb devices",
    "List of devices attached" ++ nl ++ "XABC" ++ tab ++ "unauthorized" ++ nl
    ++ "ABC" ++ tab ++ "device" ++ nl ++ nl)].

(** A record with a name given by the user, last seen offline, whose
    model and device class were never filled in. *)
Definition my_phone : device_record :=
  [("name", PyStr "MyPhone"); ("serial", PyStr "ABC123");
   ("ip_address", PyStr ""); ("status", PyStr "offline")].

(** A long listing whose line for the serial shows port 5555, and an
    address query that prints a single word. *)
Definition wireless_one_word_bridge : list (string * string) :=
  [("adb devices",
    "List of devices attached" ++ nl ++ "ABC123" ++ tab ++ "device" ++ nl ++ nl);
   ("adb devices -l",
    "List of devices attached" ++ nl
    ++ "ABC123                 device 192.168.1.5:5555 product:panther"
    ++ nl ++ nl);
   (ip_query "ABC123", "inet" ++ nl)].

(** A bridge with no device attached: the flat listing is its header. *)
Definition no_device_bridge : list (string * string) :=
  [("adb devices", "List of devices attached" ++ nl ++ nl)].

(** An address query that prints a single word. *)
Definition one_word_bridge : list (string * string) :=
  [(ip_query "ABC123", "inet" ++ nl)].

(** An address query on an interface that has an IPv6 address only. *)
Definition inet6_bridge : list (string * string) :=
  [(ip_query "ABC123", "    inet6 fe80::1/64 scope link" ++ nl)].

(** ** What a record holds under a key, and what an update may change *)

(** The entry under [k]: [None] when the key is absent, [Some PyNone] when
    it holds [None]. *)
Definition field (d : device_record) (k : string) : option pyval :=
  dict_lookup String.eqb d k.

(** The keys the reconciler never writes in a record that exists. *)
Definition untouched (k : string) : Prop :=
  k <> "model" /\ k <> "device_type" /\ k <> "ip_address" /\ k <> "status".

Definition frame (d d' : device_record) : Prop :=
  forall k, untouched k -> field d' k = field d k.

(** A record made by the reconciler: its name is empty and its serial is
    a listed serial that passed the filter. *)
Definition fresh (d : device_record) : Prop :=
  field d "name" = Some (PyStr "")
  /\ exists serial, field d "serial" = Some (PyStr serial)
                    /\ is_ip_port serial = false.

(** [grows r r']: position by position, [r'] holds a record of [r] with
    its untouched keys as they were, and beyond the end of [r] only
    records made by the reconciler. *)
Definition grows (r r' : registry) : Prop :=
  length r <= length r'
  /\ forall i d', nth_error r' i = Some d' ->
       match nth_error r i with
       | Some d => frame d d'
       | None => fresh d'
       end.

(** A listing line the authorization scan passes over: it does not
    contain the serial, or its status field is neither [device] nor
    [unauthorized]. *)
Definition passed_over (serial line : string) : Prop :=
  str_in serial line = true ->
  exists status, nth_error (split_on TAB line) 1 = Some status
                 /\ status <> "device" /\ status <> "unauthorized".

(** ** Notions used to state further properties *)

(** The lines of the long listing a query made in state [st] reads. *)
Definition long_listing (World : Type)
  (run : string -> World -> option string * World) (st : state World)
  : list string :=
  splitlines (text_of (option_map strip (fst (run "adb devices -l" (world st))))).

(** The first line of a listing that contains the serial. *)
Definition first_line_with (serial : string) (lines : list string)
  : option string :=
  find (fun line => str_in serial line) lines.

(** [fills k d d']: the record [d'] is [d], or [d] with a value stored
    under [k]; and it is [d] when [d] holds a non-empty value under
    [k]. *)
Definition fills (k : string) (d d' : device_record) : Prop :=
  (truthy (get d k) = true -> d' = d)
  /\ (d' = d \/ exists v, d' = setitem d k v).

(** The entry a record holds under [serial]. *)
Definition serial_of (d : device_record) : option pyval := field d "serial".

(** The last position of a registry whose record holds [k] as its
    serial. *)
Fixpoint last_pos (k : pyval) (r : registry) : option nat :=
  match r with
  | [] => None
  | d :: rest =>
      match last_pos k rest with
      | Some j => Some (S j)
      | None =>
          match serial_of d with
          | Some s => if pyval_eqb s k then Some 0 else None
          | None => None
          end
      end
  end.

(** Every record of [r] has a serial, and the index knows it. *)
Definition covers (di : index) (r : registry) : Prop :=
  forall d, In d r ->
    exists s, serial_of d = Some s /\ dict_lookup pyval_eqb di s <> None.

(** A record as a pass appends it: an empty name, a serial, a non-empty
    model and device class, and the status [device]. *)
Definition complete (d : device_record) : Prop :=
  field d "name" = Some (PyStr "")
  /\ (exists serial, field d "serial" = Some (PyStr serial))
  /\ truthy (get d "model") = true
  /\ truthy (get d "device_type") = true
  /\ field d "status" = Some (PyStr "device").

(** A line of the flat listing that names no device to reconcile: a blank
    line, the header, or a line whose first field is empty or has the
    IPv4:port shape. *)
Definition skipped (line : string) : bool :=
  is_empty (strip line)
  || (strip line =? "List of devices attached")
  || is_ip_port (hd "" (split_on TAB line))
  || is_empty (hd "" (split_on TAB line)).

(** A command that only reads from the bridge, as the program writes
    them: one of the two listings (lines 39, 109, 123 and 209), one of
    the three property queries (lines 77-79, 149 and 153) or the address
    query (lines 60 and 159), for some serial. *)
Definition is_query (e : event) : Prop :=
  match e with
  | Adb c =>
      c = "adb devices" \/ c = "adb devices -l"
      \/ (exists serial, c = getprop_query serial "ro.product.model")
      \/ (exists serial, c = getprop_query serial "ro.product.device")
      \/ (exists serial, c = getprop_query serial "ro.serialno")
      \/ (exists serial, c = ip_query serial)
  | Scrcpy _ => False
  end.

(** What the launcher does to a device: the command lines it writes on
    lines 308, 316 and 319, for any serial or address put in them, and the
    start of the mirroring process (line 325). *)
Definition is_action (e : event) : Prop :=
  match e with
  | Adb c =>
      (exists serial, c = "adb -s " ++ serial ++ " disconnect")
      \/ (exists serial, c = "adb -s " ++ serial ++ " usb")
      \/ (exists address, c = "adb connect " ++ address ++ ":5555")
  | Scrcpy _ => True
  end.

(** [s.endswith(suffix)] *)
Fixpoint ends_with (suffix s : string) : bool :=
  (s =? suffix)
  || match s with
     | EmptyString => false
     | String _ s' => ends_with suffix s'
     end.

Definition is_adb (e : event) : Prop :=
  match e with
  | Adb _ => True
  | Scrcpy _ => False
  end.

(** [logs P m]: whatever [m] does, it only appends to the journal, and
    only events that satisfy [P]. *)
Definition logs (World A : Type) (P : event -> Prop) (m : M World A) : Prop :=
  forall st, exists l,
    journal (snd (m st)) = (journal st ++ l)%list /\ Forall P l.

(** [logs_ok P m]: when [m] returns, it has only appended to the journal,
    and only events that satisfy [P]. *)
Definition logs_ok (World A : Type) (P : event -> Prop) (m : M World A) : Prop :=
  forall st a st', m st = (Ok a, st') ->
    exists l, journal st' = (journal st ++ l)%list /\ Forall P l.

(** What a program that may start the mirroring process for the record
    [d] appended to the journal, [l], and how it ended, [r]: bridge
    commands only, or bridge commands, then the mirroring process for
    the serial of [d], then the exit of the program. *)
Definition mirrors_last (d : device_record) (l : list event) (A : Type)
  (r : result A) : Prop :=
  Forall is_adb l
  \/ exists l' serial,
       l = (l' ++ [Scrcpy serial])%list /\ Forall is_adb l'
       /\ getitem d "serial" = Ok (PyStr serial)
       /\ r = Raise SystemExit.

Definition ends_mirroring (World A : Type) (d : device_record) (m : M World A)
  : Prop :=
  forall st, exists l,
    journal (snd (m st)) = (journal st ++ l)%list
    /\ mirrors_last d l (fst (m st)).

(** Whether some character of [s] satisfies [p]. *)
Fixpoint any_char (p : ascii -> bool) (s : string) : bool :=
  match s with
  | EmptyString => false
  | String c s' => p c || any_char p s'
  end.

(** The output of the address query as [adb_command] returns it in state
    [st]. *)
Definition ip_output (World : Type)
  (run : string -> World -> option string * World) (serial : string)
  (st : state World) : option string :=
  option_map strip (fst (run (ip_query serial) (world st))).

(** * Properties *)

Example split_on_tab :
  split_on TAB ("ABC123" ++ tab ++ "device") = ["ABC123"; "device"].
Proof. reflexivity. Qed.

Example split_on_none : split_on TAB "ABC123" = ["ABC123"].
Proof. reflexivity. Qed.

Example split_ws_inet :
  split_ws "    inet 192.168.1.5/24 brd 192.168.1.255 scope global wlan0"
  = ["inet"; "192.168.1.5/24"; "brd"; "192.168.1.255"; "scope"; "global"; "wlan0"].
Proof. reflexivity. Qed.

Example splitlines_crlf :
  splitlines ("a" ++ String CR nl ++ nl ++ "b" ++ nl) = ["a"; ""; "b"].
Proof. reflexivity. Qed.

Example strip_both : strip ("  a b " ++ nl) = "a b".
Proof. reflexivity. Qed.

Example is_ip_port_yes : is_ip_port "192.168.1.5:5555" = true.
Proof. reflexivity. Qed.

Example is_ip_port_long_octet : is_ip_port "1921.168.1.5:5555" = false.
Proof. reflexivity. Qed.

Example is_ip_port_serial : is_ip_port "ABC123" = false.
Proof. reflexivity. Qed.

Example int_of_str_examples :
  int_of_str " 0 " = Some 0%Z /\ int_of_str "-12" = Some (-12)%Z
  /\ int_of_str "1_0" = Some 10%Z /\ int_of_str "abc" = None
  /\ int_of_str "" = None /\ int_of_str "1__0" = None
  /\ int_of_str (String "028"%char "3") = None
  /\ int_of_str (String "133"%char "-3") = Some (-3)%Z
  /\ int_of_str "- 3" = None /\ int_of_str "+" = None.
Proof. repeat split. Qed.

Example dump_of_one_record :
  Json.dump [[("name", PyStr ""); ("ip_address", PyNone)]]
  = "{" ++ nl
    ++ "    " ++ Json.literal "devices" ++ ": [" ++ nl
    ++ "        {" ++ nl
    ++ "            " ++ Json.literal "name" ++ ": " ++ Json.literal "" ++ "," ++ nl
    ++ "            " ++ Json.literal "ip_address" ++ ": null" ++ nl
    ++ "        }" ++ nl
    ++ "    ]" ++ nl
    ++ "}".
Proof. reflexivity. Qed.

(** ** Records *)

Lemma field_setitem_same (d : device_record) k v :
  field (setitem d k v) k = Some v.
Proof.
  unfold field, setitem.
  induction d as [|[k' v'] d IH]; simpl.
  - now rewrite String.eqb_refl.
  - destruct (String.eqb k' k) eqn:E; simpl; rewrite E; auto.
Qed.

Lemma field_setitem_other (d : device_record) k v k' :
  k' <> k -> field (setitem d k v) k' = field d k'.
Proof.
  intros Hne. unfold field, setitem.
  induction d as [|[k0 v0] d IH]; simpl.
  - destruct (String.eqb k k') eqn:E; auto.
    apply String.eqb_eq in E. congruence.
  - destruct (String.eqb k0 k) eqn:E; simpl.
    + destruct (String.eqb k0 k') eqn:E'; auto.
      apply String.eqb_eq in E, E'. congruence.
    + destruct (String.eqb k0 k'); auto.
Qed.

Lemma get_field d k :
  get d k = match field d k with Some v => v | None => PyNone end.
Proof. reflexivity. Qed.

Lemma frame_refl d : frame d d.
Proof. now intros k _. Qed.

Lemma frame_trans d1 d2 d3 : frame d1 d2 -> frame d2 d3 -> frame d1 d3.
Proof.
  intros H12 H23 k Hk. now rewrite (H23 k Hk), (H12 k Hk).
Qed.

Lemma frame_setitem d k v :
  k = "model" \/ k = "device_type" \/ k = "ip_address" \/ k = "status" ->
  frame d (setitem d k v).
Proof.
  intros Hk k' (H1 & H2 & H3 & H4).
  apply field_setitem_other.
  destruct Hk as [-> | [-> | [-> | ->]]]; assumption.
Qed.

Lemma untouched_name : untouched "name".
Proof. repeat split; discriminate. Qed.

Lemma untouched_serial : untouched "serial".
Proof. repeat split; discriminate. Qed.

Lemma fresh_frame d d' : fresh d -> frame d d' -> fresh d'.
Proof.
  intros (Hn & s & Hs & Hp) Hf. split.
  - now rewrite (Hf _ untouched_name).
  - exists s. now rewrite (Hf _ untouched_serial).
Qed.

(** ** Lists updated by index *)

Lemma length_list_set (A : Type) (l : list A) i x :
  length (list_set l i x) = length l.
Proof.
  revert i; induction l as [|h t IH]; intros [|i]; simpl; auto.
Qed.

Lemma nth_error_list_set (A : Type) (l : list A) i x j :
  nth_error (list_set l i x) j
  = if Nat.eqb i j
    then match nth_error l i with Some _ => Some x | None => None end
    else nth_error l j.
Proof.
  revert i j; induction l as [|h t IH]; intros [|i] [|j]; simpl; auto.
  now destruct (Nat.eqb i j).
Qed.

(** ** The registry only grows *)

Lemma grows_refl r : grows r r.
Proof.
  split; [lia|]. intros i d' H. rewrite H. apply frame_refl.
Qed.

Lemma grows_trans r1 r2 r3 : grows r1 r2 -> grows r2 r3 -> grows r1 r3.
Proof.
  intros [L12 H12] [L23 H23]. split; [lia|].
  intros i d3 H3. specialize (H23 i d3 H3).
  destruct (nth_error r2 i) as [d2|] eqn:E2.
  - specialize (H12 i d2 E2).
    destruct (nth_error r1 i) as [d1|].
    + eapply frame_trans; eauto.
    + eapply fresh_frame; eauto.
  - destruct (nth_error r1 i) eqn:E1; auto.
    apply nth_error_None in E2.
    assert (i < length r1) by (apply nth_error_Some; congruence). lia.
Qed.

Lemma grows_list_set r i d d' :
  nth_error r i = Some d -> frame d d' -> grows r (list_set r i d').
Proof.
  intros Hi Hf. split; [rewrite length_list_set; lia|].
  intros j dj. rewrite nth_error_list_set.
  destruct (Nat.eqb i j) eqn:E.
  - apply Nat.eqb_eq in E; subst j. rewrite Hi.
    intros [= <-]. exact Hf.
  - intros ->. apply frame_refl.
Qed.

Lemma grows_app r d' : fresh d' -> grows r (r ++ [d'])%list.
Proof.
  intros Hf. split; [rewrite length_app; simpl; lia|].
  intros i d Hd.
  destruct (nth_error r i) as [d0|] eqn:E.
  - rewrite nth_error_app1 in Hd by (apply nth_error_Some; congruence).
    rewrite E in Hd. injection Hd as <-. apply frame_refl.
  - apply nth_error_None in E.
    rewrite nth_error_app2 in Hd by lia.
    destruct (i - length r) as [|n]; simpl in Hd.
    + now injection Hd as <-.
    + now destruct n.
Qed.

(** ** Programs in the monad *)

Section Facts.

Variable World : Type.
Variable run : string -> World -> option string * World.

Notation "x <- c ;; k" := (bind c (fun x => k))
  (at level 61, c at next level, right associativity).

Lemma ensures_ret (A : Type) (a : A) (Q : A -> Prop) :
  Q a -> ensures (@ret World A a) Q.
Proof. intros H st a' st' [= <- _]. exact H. Qed.

Lemma ensures_lift (A : Type) (r : result A) (Q : A -> Prop) :
  (forall a, r = Ok a -> Q a) -> ensures (@lift World A r) Q.
Proof. intros H st a st' [= -> _]. now apply H. Qed.

Lemma ensures_bind (A B : Type) (m : M World A) (k : A -> M World B)
  (P : A -> Prop) (Q : B -> Prop) :
  ensures m P -> (forall a, P a -> ensures (k a) Q) -> ensures (bind m k) Q.
Proof.
  intros Hm Hk st b st'. unfold bind.
  destruct (m st) as [[a|e] st1] eqn:E; [|discriminate].
  intros H. eapply Hk; eauto.
Qed.

Lemma ensures_any (A : Type) (m : M World A) : ensures m (fun _ => True).
Proof. now intros st a st' _. Qed.

Lemma ensures_weaken (A : Type) (m : M World A) (P Q : A -> Prop) :
  ensures m P -> (forall a, P a -> Q a) -> ensures m Q.
Proof. intros H HPQ st a st' E. apply HPQ. eapply H; eauto. Qed.

Lemma keeps_ret (A : Type) (a : A) : keeps_file (@ret World A a).
Proof. now intros st. Qed.

Lemma keeps_raise (A : Type) e : keeps_file (@raise World A e).
Proof. now intros st. Qed.

Lemma keeps_lift (A : Type) (r : result A) : keeps_file (@lift World A r).
Proof. now intros st. Qed.

Lemma keeps_bind (A B : Type) (m : M World A) (k : A -> M World B) :
  keeps_file m -> (forall a, keeps_file (k a)) -> keeps_file (bind m k).
Proof.
  intros Hm Hk st. unfold bind. specialize (Hm st).
  destruct (m st) as [[a|e] st1]; simpl in *; [|assumption].
  now rewrite Hk.
Qed.

Lemma keeps_adb command : keeps_file (adb_command run command).
Proof.
  intros st. unfold adb_command. now destruct (run command (world st)).
Qed.

Create HintDb keeps.

#[local] Hint Resolve keeps_ret keeps_raise keeps_lift keeps_adb : keeps.

(** Walks through a program built from the pieces above. *)
Ltac keeps :=
  repeat first
    [ progress intros
    | apply keeps_bind
    | solve [auto with keeps]
    | match goal with
      | |- keeps_file (if ?b then _ else _) => destruct b
      | |- keeps_file (match ?x with _ => _ end) => destruct x
      | |- keeps_file (let _ := _ in _) => cbv zeta
      end ].

Lemma keeps_connection_type serial :
  keeps_file (get_device_connection_type run serial).
Proof. unfold get_device_connection_type. keeps. Qed.

Lemma keeps_status serial : keeps_file (get_device_status run serial).
Proof. unfold get_device_status. keeps. Qed.

Lemma keeps_ip serial : keeps_file (get_device_ip run serial).
Proof. unfold get_device_ip. keeps. Qed.

#[local] Hint Resolve keeps_connection_type keeps_status keeps_ip : keeps.

Lemma keeps_info serial : keeps_file (get_device_info run serial).
Proof. unfold get_device_info. keeps. Qed.

Lemma keeps_update_known serial status d :
  keeps_file (update_known run serial status d).
Proof. unfold update_known. keeps. Qed.

#[local] Hint Resolve keeps_info keeps_update_known : keeps.

Lemma keeps_reconcile_device serial status r di :
  keeps_file (reconcile_device run serial status r di).
Proof. unfold reconcile_device. keeps. Qed.

#[local] Hint Resolve keeps_reconcile_device : keeps.

Lemma keeps_reconcile_line line r di :
  keeps_file (reconcile_line run line r di).
Proof. unfold reconcile_line. keeps. Qed.

#[local] Hint Resolve keeps_reconcile_line : keeps.

Lemma keeps_reconcile_lines lines r di :
  keeps_file (reconcile_lines run lines r di).
Proof.
  revert r di; induction lines as [|line rest IH]; intros r di; simpl.
  - keeps.
  - apply keeps_bind; [auto with keeps|]. intros p. apply IH.
Qed.

(** *** What reconciliation does to the records *)

Lemma update_known_frame serial status d :
  ensures (update_known run serial status d) (frame d).
Proof.
  unfold update_known.
  apply ensures_bind with (P := frame d).
  { destruct (truthy (get d "model")).
    - apply ensures_ret, frame_refl.
    - eapply ensures_bind; [apply ensures_any|]. intros out _.
      apply ensures_ret, frame_setitem. auto. }
  intros d1 H1.
  apply ensures_bind with (P := frame d).
  { destruct (truthy (get d1 "device_type")).
    - now apply ensures_ret.
    - eapply ensures_bind; [apply ensures_any|]. intros out _.
      apply ensures_ret. eapply frame_trans; [exact H1|].
      apply frame_setitem. auto. }
  intros d2 H2.
  eapply ensures_bind; [apply ensures_any|]. intros connection_type _.
  apply ensures_bind with (P := frame d).
  { destruct ((connection_type =? "wifi")
              && negb (truthy (get d2 "ip_address"))).
    - eapply ensures_bind; [apply ensures_any|]. intros out _.
      cbv zeta. destruct (negb (is_empty (text_of out))).
      + eapply ensures_bind; [apply ensures_any|]. intros a _.
        apply ensures_ret. eapply frame_trans; [exact H2|].
        apply frame_setitem. auto.
      + now apply ensures_ret.
    - now apply ensures_ret. }
  intros d3 H3. cbv zeta.
  apply ensures_ret.
  set (d4 := if (connection_type =? "usb")
                && negb (truthy (get d3 "ip_address"))
             then setitem d3 "ip_address" (PyStr "") else d3).
  assert (H4 : frame d d4).
  { unfold d4.
    destruct ((connection_type =? "usb")
              && negb (truthy (get d3 "ip_address"))); auto.
    eapply frame_trans; [exact H3|]. apply frame_setitem. auto. }
  destruct (negb (pyval_eqb (get d4 "status") (PyStr status))); auto.
  eapply frame_trans; [exact H4|]. apply frame_setitem. auto.
Qed.

Lemma fresh_new_device serial status info :
  is_ip_port serial = false -> fresh (new_device serial status info).
Proof.
  intros H. split; [reflexivity|]. exists serial. now split.
Qed.

Lemma reconcile_device_grows serial status r di :
  is_ip_port serial = false ->
  ensures (reconcile_device run serial status r di)
          (fun p => grows r (fst p)).
Proof.
  intros Hs. unfold reconcile_device.
  destruct (status =? "device").
  - destruct (dict_lookup pyval_eqb di (PyStr serial)) as [idx|].
    + apply ensures_bind with (P := fun d => nth_error r idx = Some d).
      { apply ensures_lift. unfold item.
        destruct (nth_error r idx); congruence. }
      intros d Hd.
      eapply ensures_bind; [apply update_known_frame|]. intros d' Hf.
      apply ensures_ret. simpl. eapply grows_list_set; eauto.
    + eapply ensures_bind; [apply ensures_any|]. intros [info|] _.
      * apply ensures_ret. simpl. now apply grows_app, fresh_new_device.
      * apply ensures_ret, grows_refl.
  - eapply ensures_bind; [apply ensures_any|]. intros e _.
    apply ensures_ret, grows_refl.
Qed.

Lemma reconcile_line_grows line r di :
  ensures (reconcile_line run line r di) (fun p => grows r (fst p)).
Proof.
  unfold reconcile_line.
  destruct (negb (is_empty (strip line))
            && negb (strip line =? "List of devices attached")).
  - eapply ensures_bind; [apply ensures_any|]. intros serial _. cbv zeta.
    destruct (is_ip_port serial) eqn:E; simpl.
    + apply ensures_ret, grows_refl.
    + destruct (is_empty serial).
      * apply ensures_ret, grows_refl.
      * eapply ensures_bind; [apply ensures_any|]. intros status _.
        now apply reconcile_device_grows.
  - apply ensures_ret, grows_refl.
Qed.

Lemma reconcile_lines_grows lines r di :
  ensures (reconcile_lines run lines r di) (fun p => grows r (fst p)).
Proof.
  revert r di; induction lines as [|line rest IH]; intros r di; simpl.
  - apply ensures_ret, grows_refl.
  - eapply ensures_bind; [apply reconcile_line_grows|].
    intros [r1 di1] H1; simpl in *.
    eapply ensures_weaken; [apply IH|].
    intros p Hp. eapply grows_trans; eauto.
Qed.

(** The pass as a whole: when it ends normally the file holds a registry
    grown from the one it held, and when it raises the file is as it
    was. *)
Lemma update_device_map_outcome (st : state World) :
  match update_device_map run st with
  | (Ok _, st') =>
      exists r', device_map_json st' = Some r' /\ grows (registry_of st) r'
  | (Raise _, st') => device_map_json st' = device_map_json st
  end.
Proof.
  unfold update_device_map, bind at 1.
  pose proof (keeps_adb "adb devices" st) as K0.
  destruct (adb_command run "adb devices" st) as [[devices_list|e] st0] eqn:E0;
    simpl in K0; [|exact K0].
  assert (R0 : registry_of st0 = registry_of st)
    by (unfold registry_of; now rewrite K0).
  unfold bind at 1.
  assert (L : load_device_map st0 = (Ok (registry_of st0), st0))
    by (unfold load_device_map, registry_of;
        now destruct (device_map_json st0)).
  rewrite L. unfold bind at 1, lift at 1.
  destruct (build_index (registry_of st0)) as [di|e]; [|exact K0].
  unfold bind.
  set (m := if truthy_text devices_list
            then reconcile_lines run (splitlines (text_of devices_list))
                                 (registry_of st0) di
            else ret (registry_of st0, di)).
  assert (Km : keeps_file m)
    by (unfold m; destruct (truthy_text devices_list);
        [apply keeps_reconcile_lines | apply keeps_ret]).
  assert (Gm : ensures m (fun p => grows (registry_of st0) (fst p)))
    by (unfold m; destruct (truthy_text devices_list);
        [apply reconcile_lines_grows | apply ensures_ret, grows_refl]).
  specialize (Km st0).
  destruct (m st0) as [[p|e] st1] eqn:E1; simpl in Km.
  - simpl. exists (fst p). split; [reflexivity|].
    rewrite <- R0. eapply Gm; eauto.
  - congruence.
Qed.

Lemma grows_keeps_records r r' i d :
  grows r r' -> nth_error r i = Some d ->
  exists d', nth_error r' i = Some d' /\ frame d d'.
Proof.
  intros [L H] Hd.
  assert (Hi : i < length r') by
    (assert (i < length r) by (apply nth_error_Some; congruence); lia).
  destruct (nth_error r' i) as [d'|] eqn:E.
  - exists d'. split; [reflexivity|].
    specialize (H i d' E). now rewrite Hd in H.
  - apply nth_error_None in E. lia.
Qed.

(** Every record of the file is, after a pass, at the same position with
    its untouched keys as they were, however the pass ends. *)
Lemma update_device_map_keeps_records (st : state World) i d :
  nth_error (registry_of st) i = Some d ->
  exists d', nth_error (registry_of (snd (update_device_map run st))) i = Some d'
             /\ frame d d'.
Proof.
  intros Hd. pose proof (update_device_map_outcome st) as H.
  destruct (update_device_map run st) as [[[]|e] st']; simpl.
  - destruct H as (r' & Hf & Hg). unfold registry_of at 1. rewrite Hf.
    eapply grows_keeps_records; eauto.
  - unfold registry_of at 1. rewrite H. fold (registry_of st).
    exists d. split; [assumption | apply frame_refl].
Qed.

(** C5: reconciliation leaves the name of every record of the registry as
    it was (so in particular a non-empty name), whatever the bridge
    answers and however the pass ends: the record is still at its
    position and holds the same entry under [name]. *)
Theorem name_preserved (st : state World) i d :
  nth_error (registry_of st) i = Some d ->
  exists d', nth_error (registry_of (snd (update_device_map run st))) i = Some d'
             /\ field d' "name" = field d "name"
             /\ get d' "name" = get d "name".
Proof.
  intros Hd.
  destruct (update_device_map_keeps_records st i Hd) as (d' & Hn & Hf).
  exists d'. split; [assumption|].
  assert (E : field d' "name" = field d "name") by apply Hf, untouched_name.
  split; [exact E|]. now rewrite !get_field, E.
Qed.

Lemma reconcile_line_skips line serial r di (st : state World) :
  nth_error (split_on TAB line) 0 = Some serial ->
  is_ip_port serial = true ->
  reconcile_line run line r di st = (Ok (r, di), st).
Proof.
  intros Hs Hp. unfold reconcile_line.
  destruct (negb (is_empty (strip line))
            && negb (strip line =? "List of devices attached"));
    [|reflexivity].
  unfold bind, lift, item. rewrite Hs, Hp. reflexivity.
Qed.

(** C7: a line of the live listing whose serial token has the IPv4:port
    shape is skipped (the registry, the index and the state are as they
    were, no query is made), and every record of the registry a pass
    leaves is either a record that was there, with its serial as it was,
    or a record whose serial has not the IPv4:port shape. *)
Theorem ip_port_serials_skipped :
  (forall line serial r di (st : state World),
      nth_error (split_on TAB line) 0 = Some serial ->
      is_ip_port serial = true ->
      reconcile_line run line r di st = (Ok (r, di), st))
  /\ (forall (st : state World) i d',
        nth_error (registry_of (snd (update_device_map run st))) i = Some d' ->
        (exists d, nth_error (registry_of st) i = Some d
                   /\ field d' "serial" = field d "serial")
        \/ (exists serial, field d' "serial" = Some (PyStr serial)
                           /\ is_ip_port serial = false)).
Proof.
  split; [exact reconcile_line_skips|].
  intros st i d'. pose proof (update_device_map_outcome st) as H.
  destruct (update_device_map run st) as [[[]|e] st']; simpl.
  - destruct H as (r' & Hf & [_ Hg]). unfold registry_of at 1. rewrite Hf.
    intros Hd'. specialize (Hg i d' Hd').
    destruct (nth_error (registry_of st) i) as [d|].
    + left. exists d. split; [reflexivity | apply Hg, untouched_serial].
    + right. exact (proj2 Hg).
  - unfold registry_of at 1. rewrite H. fold (registry_of st).
    intros Hd'. left. now exists d'.
Qed.

Lemma reconcile_device_not_authorized serial status r di (st : state World) :
  status <> "device" ->
  reconcile_device run serial status r di st = (Ok (r, di), st)
  \/ exists e, reconcile_device run serial status r di st = (Raise e, st).
Proof.
  intros Hs. unfold reconcile_device.
  destruct (status =? "device") eqn:E;
    [apply String.eqb_eq in E; contradiction|].
  unfold bind, lift.
  destruct (find_by_serial r serial) as [existing|e]; [left | right; exists e];
    reflexivity.
Qed.

(** C8: a pass removes no entry: the registry it leaves is at least as
    long, and every record is still at its position with the same serial
    and name, whether the pass ends normally or raises; and for a status
    other than [device] the branch taken gives back the registry and the
    index it was given and leaves the state (journal and file) alone. *)
Theorem entries_never_removed :
  (forall st : state World,
      length (registry_of st)
      <= length (registry_of (snd (update_device_map run st)))
      /\ forall i d, nth_error (registry_of st) i = Some d ->
           exists d',
             nth_error (registry_of (snd (update_device_map run st))) i = Some d'
             /\ field d' "serial" = field d "serial"
             /\ field d' "name" = field d "name")
  /\ (forall serial status r di (st : state World),
        status <> "device" ->
        reconcile_device run serial status r di st = (Ok (r, di), st)
        \/ exists e, reconcile_device run serial status r di st = (Raise e, st)).
Proof.
  split; [|exact reconcile_device_not_authorized].
  intros st. split.
  - pose proof (update_device_map_outcome st) as H.
    destruct (update_device_map run st) as [[[]|e] st']; simpl.
    + destruct H as (r' & Hf & [L _]). unfold registry_of at 2.
      now rewrite Hf.
    + unfold registry_of at 2. rewrite H. fold (registry_of st). lia.
  - intros i d Hd.
    destruct (update_device_map_keeps_records st i Hd) as (d' & Hn & Hf).
    exists d'. repeat split; [assumption | apply Hf, untouched_serial
                             | apply Hf, untouched_name].
Qed.

(** *** The address of a record on a cable *)

Lemma ensures_connection_type serial (v : string) :
  (forall st : state World,
      fst (get_device_connection_type run serial st) = Ok v) ->
  ensures (get_device_connection_type run serial) (fun c => c = v).
Proof.
  intros H st c st' E. specialize (H st). rewrite E in H. simpl in H.
  congruence.
Qed.

(** C2, as amended: when an authorized record that exists is reconciled
    and the medium derived for its serial is wired, its address becomes
    the empty string if it was empty, [None] or absent, and is left as it
    was if it was not empty. *)
Theorem update_known_wired_address serial status d (st st' : state World) d' :
  (forall st0 : state World,
      fst (get_device_connection_type run (PyStr serial) st0) = Ok "usb") ->
  update_known run serial status d st = (Ok d', st') ->
  field d' "ip_address"
  = if truthy (get d "ip_address") then field d "ip_address"
    else Some (PyStr "").
Proof.
  intros Hw. revert st d' st'.
  change (ensures (update_known run serial status d)
            (fun d' => field d' "ip_address"
                       = if truthy (get d "ip_address")
                         then field d "ip_address" else Some (PyStr ""))).
  set (same := fun x : device_record =>
                 field x "ip_address" = field d "ip_address").
  unfold update_known.
  apply ensures_bind with (P := same).
  { destruct (truthy (get d "model")).
    - now apply ensures_ret.
    - eapply ensures_bind; [apply ensures_any|]. intros out _.
      apply ensures_ret. apply field_setitem_other. discriminate. }
  intros d1 H1.
  apply ensures_bind with (P := same).
  { destruct (truthy (get d1 "device_type")).
    - now apply ensures_ret.
    - eapply ensures_bind; [apply ensures_any|]. intros out _.
      apply ensures_ret. unfold same.
      rewrite field_setitem_other by discriminate. exact H1. }
  intros d2 H2.
  eapply ensures_bind; [apply ensures_connection_type, Hw|].
  intros c ->. simpl andb.
  apply ensures_bind with (P := same); [now apply ensures_ret|].
  intros d3 H3. cbv zeta. apply ensures_ret.
  assert (G : get d3 "ip_address" = get d "ip_address")
    by (rewrite !get_field; now rewrite H3).
  rewrite G.
  destruct (truthy (get d "ip_address")); simpl;
    match goal with
    | |- context [negb (pyval_eqb ?a ?b)] => destruct (negb (pyval_eqb a b))
    end;
    rewrite ?(@field_setitem_other _ "status" _ "ip_address") by discriminate;
    rewrite ?field_setitem_same; auto.
Qed.

(** The facts gathered for a device on a cable hold the key
    [ip_address] with the value [None], so the default of
    [get_default] never applies to it. *)
Lemma get_device_info_on_cable serial :
  (forall st0 : state World,
      fst (get_device_connection_type run (PyStr serial) st0) = Ok "usb") ->
  ensures (get_device_info run serial)
          (fun o => forall info, o = Some info ->
                      field info "ip_address" = Some PyNone).
Proof.
  intros Hw. unfold get_device_info.
  eapply ensures_bind; [apply ensures_any|]. intros model _.
  eapply ensures_bind; [apply ensures_any|]. intros device_type _.
  eapply ensures_bind; [apply ensures_any|]. intros serial_number _.
  eapply ensures_bind; [apply ensures_connection_type, Hw|].
  intros c ->. simpl String.eqb.
  eapply ensures_bind; [apply ensures_any|]. intros ip _. cbv zeta.
  destruct (truthy_text model && truthy_text device_type
            && truthy_text serial_number);
    apply ensures_ret; intros info [= <-]. reflexivity.
Qed.

(** A serial on a cable that the registry does not know: the pass leaves
    the registry as it is (a property query failed) or appends one record
    whose name is empty, whose status is the current one and whose
    address is [None]. *)
Lemma new_record_on_cable serial r di :
  (forall st0 : state World,
      fst (get_device_connection_type run (PyStr serial) st0) = Ok "usb") ->
  dict_lookup pyval_eqb di (PyStr serial) = None ->
  ensures (reconcile_device run serial "device" r di)
          (fun p => fst p = r
                    \/ exists d, fst p = (r ++ [d])%list
                                 /\ field d "name" = Some (PyStr "")
                                 /\ field d "serial" = Some (PyStr serial)
                                 /\ field d "status" = Some (PyStr "device")
                                 /\ field d "ip_address" = Some PyNone).
Proof.
  intros Hw Hdi. unfold reconcile_device. simpl String.eqb. rewrite Hdi.
  eapply ensures_bind; [apply get_device_info_on_cable, Hw|].
  intros [info|] Hinfo; apply ensures_ret; [right | now left].
  exists (new_device serial "device" info). simpl fst.
  repeat split. unfold new_device, field, get_default. simpl.
  specialize (Hinfo info eq_refl). unfold field in Hinfo.
  now rewrite Hinfo.
Qed.

(** *** The commands of the launcher *)

Lemma adb_command_journal command (st : state World) :
  exists out st',
    adb_command run command st = (Ok out, st')
    /\ journal st' = (journal st ++ [Adb command])%list.
Proof.
  unfold adb_command. destruct (run command (world st)) as [out w].
  now exists (option_map strip out), (mkState w (journal st ++ [Adb command])
                                      (device_map_json st) (stdin st)).
Qed.

(** C1, as amended: the launcher runs a disconnect command for every
    listed device that differs from the selected record, in the order of
    the list, and it runs nothing else in that loop: the medium of a
    device is not asked for. *)
Theorem disconnect_others_journal devices selected (st st' : state World) :
  disconnect_others run devices selected st = (Ok tt, st') ->
  journal st'
  = (journal st
     ++ map disconnect_of
            (filter (fun d => negb (dict_eqb d selected)) devices))%list.
Proof.
  revert st. induction devices as [|d rest IH]; intros st; simpl.
  - intros [= <-]. now rewrite app_nil_r.
  - unfold bind at 1.
    destruct (negb (dict_eqb d selected)); simpl.
    + unfold bind at 1, lift at 1, getitem at 1, disconnect_of at 1.
      rewrite get_field. unfold field.
      destruct (dict_lookup String.eqb d "serial") as [serial|];
        [|discriminate].
      unfold bind at 1, lift at 1, getitem at 1.
      destruct (dict_lookup String.eqb d "name"); [|discriminate].
      unfold bind at 1.
      match goal with
      | |- context [adb_command run ?c st] =>
          destruct (adb_command_journal c st) as (out & st1 & E & J)
      end.
      rewrite E. unfold ret. cbv beta iota.
      intros H. apply IH in H. rewrite H, J, <- app_assoc. reflexivity.
    + unfold ret. apply IH.
Qed.

(** *** The authorization check *)

Lemma authorized_scan_passes serial before rest :
  Forall (passed_over serial) before ->
  authorized_scan (PyStr serial) (before ++ rest)
  = authorized_scan (PyStr serial) rest.
Proof.
  induction 1 as [|line before Hl _ IH]; [reflexivity|].
  simpl. destruct (str_in serial line) eqn:E; [|exact IH].
  destruct (Hl E) as (status & Hs & Hd & Hu).
  unfold item. rewrite Hs. simpl.
  apply String.eqb_neq in Hd, Hu. now rewrite Hd, Hu.
Qed.

Lemma authorized_scan_all_passed serial lines :
  Forall (passed_over serial) lines ->
  authorized_scan (PyStr serial) lines = Ok false.
Proof.
  intros H. rewrite <- (app_nil_r lines).
  now rewrite authorized_scan_passes.
Qed.

Lemma authorized_scan_at serial line rest status :
  str_in serial line = true ->
  nth_error (split_on TAB line) 1 = Some status ->
  authorized_scan (PyStr serial) (line :: rest)
  = if status =? "device" then Ok true
    else if status =? "unauthorized" then Ok false
    else authorized_scan (PyStr serial) rest.
Proof.
  intros E Hs. simpl. rewrite E. unfold item. now rewrite Hs.
Qed.

Lemma authorized_scan_true serial lines :
  authorized_scan (PyStr serial) lines = Ok true <->
  exists before line after,
    lines = (before ++ line :: after)%list
    /\ Forall (passed_over serial) before
    /\ str_in serial line = true
    /\ nth_error (split_on TAB line) 1 = Some "device".
Proof.
  split.
  - induction lines as [|line rest IH]; [discriminate|].
    simpl. destruct (str_in serial line) eqn:E.
    + unfold item.
      destruct (nth_error (split_on TAB line) 1) as [status|] eqn:Hs;
        [|discriminate].
      simpl. destruct (status =? "device") eqn:Hd.
      * intros _. apply String.eqb_eq in Hd; subst status.
        exists [], line, rest. auto.
      * destruct (status =? "unauthorized") eqn:Hu; [discriminate|].
        intros H. destruct (IH H) as (before & l & after & -> & Hb & Hl).
        exists (line :: before), l, after. repeat split; try apply Hl.
        constructor; [|assumption]. intros _. exists status.
        apply String.eqb_neq in Hd, Hu. auto.
    + intros H. destruct (IH H) as (before & l & after & -> & Hb & Hl).
      exists (line :: before), l, after. repeat split; try apply Hl.
      constructor; [|assumption]. intros C. congruence.
  - intros (before & line & after & -> & Hb & E & Hs).
    rewrite authorized_scan_passes by assumption.
    now rewrite (@authorized_scan_at serial line after _ E Hs).
Qed.

Lemma is_device_authorized_scan serial (st : state World) :
  fst (is_device_authorized run serial st)
  = authorized_scan serial (flat_listing run st).
Proof.
  unfold is_device_authorized, bind, adb_command, flat_listing.
  destruct (run "adb devices" (world st)) as [[text|] w]; simpl;
    [|reflexivity].
  now destruct (strip text).
Qed.

(** What the check computes, line 214 matching with [serial in line]: it
    returns true exactly when the flat listing has a line that contains
    the serial and whose status field is [device], and every line before
    it is passed over (it does not contain the serial, or its status
    field is neither [device] nor [unauthorized]); it returns false when
    the first line not passed over shows [unauthorized], when every line
    is passed over (the serial is in no line, or only with other
    statuses), and when the listing query fails.  The line that decides
    need not be the line of the device asked about: the serial of
    another device may contain the one asked about. *)
Theorem is_device_authorized_first_deciding_line serial (st : state World) :
  (fst (is_device_authorized run (PyStr serial) st) = Ok true <->
   exists before line after,
     flat_listing run st = (before ++ line :: after)%list
     /\ Forall (passed_over serial) before
     /\ str_in serial line = true
     /\ status_field line = Some "device")
  /\ (forall before line after,
        flat_listing run st = (before ++ line :: after)%list ->
        Forall (passed_over serial) before ->
        str_in serial line = true ->
        status_field line = Some "unauthorized" ->
        fst (is_device_authorized run (PyStr serial) st) = Ok false)
  /\ (Forall (passed_over serial) (flat_listing run st) ->
      fst (is_device_authorized run (PyStr serial) st) = Ok false)
  /\ (fst (run "adb devices" (world st)) = None ->
      fst (is_device_authorized run (PyStr serial) st) = Ok false).
Proof.
  rewrite is_device_authorized_scan. repeat split.
  - apply authorized_scan_true.
  - apply authorized_scan_true.
  - intros before line after -> Hb E Hs.
    rewrite authorized_scan_passes by assumption.
    now rewrite (@authorized_scan_at serial line after _ E Hs).
  - apply authorized_scan_all_passed.
  - unfold flat_listing. now intros ->.
Qed.

(** *** The menu *)

Lemma py_item_last (A : Type) (init : list A) (d : A) :
  py_item (init ++ [d]) (-1) = Ok d.
Proof.
  unfold py_item. rewrite length_app. simpl length.
  replace (0 <=? -1)%Z with false by reflexivity.
  replace (0 <=? Z.of_nat (length init + 1) + -1)%Z with true
    by (symmetry; apply Z.leb_le; lia).
  replace (Z.to_nat (Z.of_nat (length init + 1) + -1)) with (length init)
    by lia.
  unfold item. rewrite nth_error_app2 by lia.
  now rewrite Nat.sub_diag.
Qed.

Lemma input_next text typed (st : state World) :
  stdin st = text :: typed ->
  input st = (Ok text, mkState (world st) (journal st) (device_map_json st) typed).
Proof. unfold input. now intros ->. Qed.

(** C10: when the line typed reads as the integer 0, the menu takes it as
    a choice in range: on a list that ends with a record [d] it reads the
    serial of [d], runs the authorization check on it and returns 0
    whatever the check answers (an exception of the check is passed on);
    on the empty list it raises [IndexError], the line being consumed and
    no command run. *)
Theorem menu_zero_indexes_last_device devices text typed (st : state World) :
  stdin st = text :: typed ->
  int_of_str text = Some 0%Z ->
  (forall init d, devices = (init ++ [d])%list ->
     display_device_menu run devices st
     = (_ <- lift (print_listing devices);;
        _ <- @input World;;
        serial <- lift (getitem d "serial");;
        _ <- is_device_authorized run serial;;
        ret 0%Z) st)
  /\ (devices = [] ->
      display_device_menu run devices st
      = (Raise IndexError,
         mkState (world st) (journal st) (device_map_json st) typed)).
Proof.
  intros Hin Hint. unfold display_device_menu. rewrite Hin.
  split.
  - intros init d ->. simpl menu. unfold bind, lift.
    destruct (print_listing (init ++ [d])); [|reflexivity].
    rewrite (input_next st Hin), Hint.
    replace ((0 <=? 0)%Z && (0 <=? Z.of_nat (length (init ++ [d])))%Z)
      with true by (symmetry; apply andb_true_iff; split; apply Z.leb_le; lia).
    unfold select, bind, lift. change (0 - 1)%Z with (-1)%Z.
    rewrite py_item_last.
    destruct (getitem d "serial") as [serial|e]; [|reflexivity].
    destruct (is_device_authorized run serial _) as [[[|]|e] st1];
      reflexivity.
  - intros ->. simpl menu. unfold bind, lift. simpl print_listing.
    now rewrite (input_next st Hin), Hint.
Qed.

End Facts.

(** ** The program on the scripted bridges *)

(** C1, as stated, fails: with two authorized devices that are both on a
    cable and the first one chosen, the launcher runs a disconnect command
    for the second, whose medium is wired. *)
Lemma disconnect_reaches_wired_device :
  fst (get_device_connection_type (scripted two_wired_bridge) (PyStr "USB2")
         (start (Some two_wired_registry) ["1"])) = Ok "usb"
  /\ main (scripted two_wired_bridge) (start (Some two_wired_registry) ["1"])
     = (Raise SystemExit,
        mkState tt
          [Adb "adb devices"; Adb "adb devices"; Adb "adb devices -l";
           Adb "adb devices"; Adb "adb devices -l"; Adb "adb devices";
           Adb "adb -s USB2 disconnect"; Adb "adb devices -l";
           Adb "adb -s USB1 usb"; Scrcpy "USB1"]
          (Some two_wired_registry) []).
Proof. split; reflexivity. Qed.

Lemma disconnect_others_journal_witness :
  journal (snd (disconnect_others (scripted two_wired_bridge)
                  two_wired_registry (usb_record "Desk" "USB1" "Pixel7" "panther")
                  (start None [])))
  = [Adb "adb -s USB2 disconnect"].
Proof.
  exact (@disconnect_others_journal unit (scripted two_wired_bridge)
           two_wired_registry (usb_record "Desk" "USB1" "Pixel7" "panther")
           (start None []) (mkState tt [Adb "adb -s USB2 disconnect"] None [])
           eq_refl).
Defined.

(** C2, as stated, fails: a record that holds an address and whose device
    is now on a cable keeps the address through a pass. *)
Lemma wired_record_keeps_stale_address :
  fst (get_device_connection_type (scripted wired_bridge) (PyStr "ABC123")
         (start (Some [abc123 (PyStr "192.168.1.5")]) [])) = Ok "usb"
  /\ update_device_map (scripted wired_bridge)
       (start (Some [abc123 (PyStr "192.168.1.5")]) [])
     = (Ok tt,
        mkState tt [Adb "adb devices"; Adb "adb devices"; Adb "adb devices -l"]
          (Some [abc123 (PyStr "192.168.1.5")]) []).
Proof. split; reflexivity. Qed.

Lemma update_known_wired_address_witness :
  field [("name", PyStr "MyPhone"); ("serial", PyStr "ABC123");
         ("ip_address", PyStr ""); ("status", PyStr "device");
         ("model", PyStr "Pixel7"); ("device_type", PyStr "panther")]
        "ip_address"
  = if truthy (get my_phone "ip_address") then field my_phone "ip_address"
    else Some (PyStr "").
Proof.
  apply (@update_known_wired_address unit (scripted wired_bridge)
           "ABC123" "device" my_phone (start None [])
           (mkState tt
              [Adb "adb -s ABC123 shell getprop ro.product.model";
               Adb "adb -s ABC123 shell getprop ro.product.device";
               Adb "adb devices -l"] None [])).
  - intros [[] j f t]. reflexivity.
  - reflexivity.
Defined.

(** C3: from an empty registry, with one authorized device on a cable
    whose three property queries succeed, the pass appends one record
    with an empty name and the status [device], and its address is [None]
    (written [null]), not the empty string. *)
Theorem new_wired_record_address_is_none :
  update_device_map (scripted wired_bridge) (start (Some []) [])
  = (Ok tt,
     mkState tt
       [Adb "adb devices"; Adb "adb devices";
        Adb "adb -s ABC123 shell getprop ro.product.model";
        Adb "adb -s ABC123 shell getprop ro.product.device";
        Adb "adb -s ABC123 shell getprop ro.serialno";
        Adb "adb devices -l"]
       (Some [abc123 PyNone]) [])
  /\ field (abc123 PyNone) "ip_address" = Some PyNone
  /\ String.eqb (Json.value (get (abc123 PyNone) "ip_address")) "null" = true.
Proof. repeat split. Qed.

(** C4: on the same bridge a second pass changes the file the first pass
    wrote: the address [None] of the new record becomes the empty string,
    and the two texts of the file differ. *)
Theorem second_pass_rewrites_address :
  device_map_json
    (snd (update_device_map (scripted wired_bridge) (start (Some []) [])))
  = Some [abc123 PyNone]
  /\ device_map_json
       (snd (update_device_map (scripted wired_bridge)
               (snd (update_device_map (scripted wired_bridge)
                       (start (Some []) [])))))
     = Some [abc123 (PyStr "")]
  /\ String.eqb (Json.dump [abc123 PyNone]) (Json.dump [abc123 (PyStr "")])
     = false.
Proof. repeat split. Qed.

(** C6: when the address query prints a single word, the extraction
    raises [IndexError], from [get_device_ip] and from a pass over a
    record that exists; when it prints a line of another shape it gives
    the second word up to its slash as the address. *)
Theorem address_extraction_raises :
  fst (get_device_ip (scripted one_word_bridge) "ABC123" (start None []))
  = Raise IndexError
  /\ fst (update_device_map (scripted wireless_one_word_bridge)
            (start (Some [abc123 (PyStr "")]) []))
     = Raise IndexError
  /\ fst (get_device_ip (scripted inet6_bridge) "ABC123" (start None []))
     = Ok (Some "fe80::1").
Proof. repeat split. Qed.

(** C9: the check does not return true for every device whose own line
    shows [device].  On the listing below the line of [ABC] (first field
    [ABC], the serial [update_device_map] reads off it with
    [split('\t')[0]]) shows [device], and [is_device_authorized] answers
    false for [ABC]: line 214 matches with [serial in line], so the line
    of the unauthorized device [XABC], which contains [ABC] and comes
    first, decides.  The docstring ([True if the device is authorized])
    and the comments on lines 217 and 219 promise the answer for the
    device itself. *)
Lemma authorized_line_hidden_by_longer_serial :
  flat_listing (scripted overlapping_bridge) (start None [])
  = ["List of devices attached"; "XABC" ++ tab ++ "unauthorized";
     "ABC" ++ tab ++ "device"]
  /\ split_on TAB ("ABC" ++ tab ++ "device") = ["ABC"; "device"]
  /\ fst (is_device_authorized (scripted overlapping_bridge) (PyStr "ABC")
            (start None [])) = Ok false.
Proof. repeat split. Qed.

Lemma name_preserved_witness :
  exists d',
    nth_error
      (registry_of (snd (update_device_map (scripted wired_bridge)
                           (start (Some [my_phone]) [])))) 0 = Some d'
    /\ field d' "name" = field my_phone "name"
    /\ get d' "name" = get my_phone "name".
Proof.
  exact (@name_preserved unit (scripted wired_bridge)
           (start (Some [my_phone]) []) 0 my_phone eq_refl).
Defined.

Lemma ip_port_serials_skipped_witness :
  reconcile_line (scripted wired_bridge)
    ("192.168.1.5:5555" ++ tab ++ "device") [my_phone] []
    (start (Some [my_phone]) [])
  = (Ok ([my_phone], []), start (Some [my_phone]) []).
Proof.
  exact (proj1 (@ip_port_serials_skipped unit (scripted wired_bridge))
           ("192.168.1.5:5555" ++ tab ++ "device") "192.168.1.5:5555"
           [my_phone] [] (start (Some [my_phone]) []) eq_refl eq_refl).
Defined.

Lemma entries_never_removed_witness :
  reconcile_device (scripted wired_bridge) "ABC123" "unauthorized"
    [my_phone] [(PyStr "ABC123", 0)] (start (Some [my_phone]) [])
  = (Ok ([my_phone], [(PyStr "ABC123", 0)]), start (Some [my_phone]) [])
  \/ exists e,
      reconcile_device (scripted wired_bridge) "ABC123" "unauthorized"
        [my_phone] [(PyStr "ABC123", 0)] (start (Some [my_phone]) [])
      = (Raise e, start (Some [my_phone]) []).
Proof.
  apply (proj2 (@entries_never_removed unit (scripted wired_bridge))).
  discriminate.
Defined.

Lemma is_device_authorized_witness :
  fst (is_device_authorized (scripted wired_bridge) (PyStr "ABC123")
         (start None [])) = Ok true.
Proof.
  apply (proj1 (@is_device_authorized_first_deciding_line unit
                  (scripted wired_bridge) "ABC123" (start None []))).
  exists ["List of devices attached"], ("ABC123" ++ tab ++ "device"), [].
  split; [reflexivity|]. split; [|split; reflexivity].
  constructor; [|constructor]. intros C. discriminate C.
Defined.

Lemma menu_zero_witness :
  display_device_menu (scripted wired_bridge) [abc123 (PyStr "")]
    (start None ["0"])
  = (Ok 0%Z, mkState tt [Adb "adb devices"] None [])
  /\ display_device_menu (scripted wired_bridge) [] (start None ["0"])
     = (Raise IndexError, start None []).
Proof.
  split.
  - rewrite (proj1 (@menu_zero_indexes_last_device unit
                      (scripted wired_bridge) [abc123 (PyStr "")] "0" []
                      (start None ["0"]) eq_refl eq_refl)
               [] (abc123 (PyStr "")) eq_refl).
    reflexivity.
  - exact (proj2 (@menu_zero_indexes_last_device unit
                    (scripted wired_bridge) [] "0" []
                    (start None ["0"]) eq_refl eq_refl) eq_refl).
Defined.

(** * Further properties of the program *)

Section More.

Variable World : Type.
Variable run : string -> World -> option string * World.

Notation "x <- c ;; k" := (bind c (fun x => k))
  (at level 61, c at next level, right associativity).

(** ** The scans of the two listings *)

Lemma connection_scan_find serial lines :
  connection_scan (PyStr serial) lines
  = Ok (match first_line_with serial lines with
        | Some line => if str_in ":5555" line then "wifi" else "usb"
        | None => "offline"
        end).
Proof.
  unfold first_line_with.
  induction lines as [|line rest IH]; simpl; [reflexivity|].
  destruct (str_in serial line); [|exact IH].
  now destruct (str_in ":5555" line).
Qed.

Lemma status_scan_find serial lines :
  status_scan serial lines
  = match first_line_with serial lines with
    | Some line => item (split_on TAB line) 1
    | None => Ok "offline"
    end.
Proof.
  unfold first_line_with.
  induction lines as [|line rest IH]; simpl; [reflexivity|].
  now destruct (str_in serial line).
Qed.

Lemma prefix_refl s : String.prefix s s = true.
Proof.
  induction s as [|c s IH]; simpl; [reflexivity|].
  destruct (ascii_dec c c); [exact IH | congruence].
Qed.

Lemma prefix_first_field line :
  String.prefix (hd "" (split_on TAB line)) line = true.
Proof.
  induction line as [|c line IH]; simpl; [reflexivity|].
  destruct (Ascii.eqb c TAB); simpl; [reflexivity|].
  destruct (split_on TAB line) as [|h t]; simpl in *.
  - destruct (ascii_dec c c); [now destruct line | congruence].
  - destruct (ascii_dec c c); [exact IH | congruence].
Qed.

Lemma str_in_prefix sub s : String.prefix sub s = true -> str_in sub s = true.
Proof. intros H. destruct s; simpl in *; now rewrite H. Qed.

Lemma first_line_with_some serial lines line :
  In line lines -> str_in serial line = true ->
  exists l, first_line_with serial lines = Some l.
Proof.
  unfold first_line_with. intros Hin Hs.
  destruct (find (fun l => str_in serial l) lines) as [l|] eqn:E.
  - now exists l.
  - apply (find_none _ _ E) in Hin. congruence.
Qed.

(** X1: for a serial that is a string the medium query never raises: it
    answers [offline] when the long listing has no line containing the
    serial (or the query failed or printed nothing), and otherwise
    classifies the first such line, [wifi] when that line contains
    [:5555] and [usb] when it does not. *)
Theorem connection_type_first_line serial (st : state World) :
  fst (get_device_connection_type run (PyStr serial) st)
  = Ok (match first_line_with serial (long_listing run st) with
        | Some line => if str_in ":5555" line then "wifi" else "usb"
        | None => "offline"
        end).
Proof.
  rewrite <- connection_scan_find.
  unfold get_device_connection_type, bind, adb_command, long_listing.
  destruct (run "adb devices -l" (world st)) as [[text|] w]; simpl;
    [|reflexivity].
  now destruct (strip text).
Qed.

(** X2: the status query answers with the second tab-separated field of
    the first line of the flat listing that contains the serial, raises
    [IndexError] when that line has no tab, and answers [offline] when no
    line contains the serial; a serial that is the first field of a line
    of that listing is always found in some line. *)
Theorem device_status_first_line serial (st : state World) :
  fst (get_device_status run serial st)
  = match first_line_with serial (flat_listing run st) with
    | Some line => item (split_on TAB line) 1
    | None => Ok "offline"
    end
  /\ forall line,
      In line (flat_listing run st) ->
      nth_error (split_on TAB line) 0 = Some serial ->
      exists l, first_line_with serial (flat_listing run st) = Some l.
Proof.
  split.
  - rewrite <- status_scan_find.
    unfold get_device_status, bind, adb_command, flat_listing.
    destruct (run "adb devices" (world st)) as [[text|] w]; simpl;
      [|reflexivity].
    now destruct (strip text).
  - intros line Hin Hs. apply first_line_with_some with (line := line);
      [assumption|].
    apply str_in_prefix. pose proof (prefix_first_field line) as H.
    destruct (split_on TAB line) as [|h t]; [discriminate|].
    simpl in Hs. injection Hs as <-. exact H.
Qed.

(** ** The facts gathered for a device *)

Lemma opt_val_truthy o : truthy (opt_val o) = truthy_text o.
Proof. now destruct o. Qed.

Lemma get_device_info_complete serial :
  ensures (get_device_info run serial)
    (fun o => forall info, o = Some info ->
       map fst info = ["model"; "device_type"; "serial_number"; "ip_address"]
       /\ truthy (get info "model") = true
       /\ truthy (get info "device_type") = true
       /\ truthy (get info "serial_number") = true).
Proof.
  unfold get_device_info.
  eapply ensures_bind; [apply ensures_any|]. intros model _.
  eapply ensures_bind; [apply ensures_any|]. intros device_type _.
  eapply ensures_bind; [apply ensures_any|]. intros serial_number _.
  eapply ensures_bind; [apply ensures_any|]. intros connection_type _.
  eapply ensures_bind; [apply ensures_any|]. intros ip _. cbv zeta.
  destruct (truthy_text model) eqn:Em; simpl;
    [|apply ensures_ret; discriminate].
  destruct (truthy_text device_type) eqn:Ed; simpl;
    [|apply ensures_ret; discriminate].
  destruct (truthy_text serial_number) eqn:Es; simpl;
    [|apply ensures_ret; discriminate].
  apply ensures_ret. intros info [= <-].
  repeat split; unfold get; simpl; now rewrite opt_val_truthy.
Qed.

(** X3: the facts gathered for a serial are all or nothing.  Name the
    outputs of the three property queries, run one after the other, and
    the medium found after them.  Facts that are returned hold exactly
    the keys [model], [device_type], [serial_number] and [ip_address], in
    that order; the first three hold the outputs of the queries, none of
    them failed or empty, and the address is [None] unless the medium is
    [wifi], where it is what [get_device_ip] returns.  When one of the
    three outputs is missing or empty no facts are returned.  Off [wifi]
    the function returns, with [None] exactly in that case; on [wifi] it
    does so when [get_device_ip] returns and raises what [get_device_ip]
    raises. *)
Theorem device_info_is_complete serial model device_type serial_number
    connection_type (st st1 st2 st3 st4 : state World) :
  adb_command run (getprop_query serial "ro.product.model") st
  = (Ok model, st1) ->
  adb_command run (getprop_query serial "ro.product.device") st1
  = (Ok device_type, st2) ->
  adb_command run (getprop_query serial "ro.serialno") st2
  = (Ok serial_number, st3) ->
  get_device_connection_type run (PyStr serial) st3
  = (Ok connection_type, st4) ->
  let all :=
    truthy_text model && truthy_text device_type && truthy_text serial_number in
  (forall info st',
      get_device_info run serial st = (Ok (Some info), st') ->
      all = true
      /\ map fst info = ["model"; "device_type"; "serial_number"; "ip_address"]
      /\ get info "model" = opt_val model
      /\ get info "device_type" = opt_val device_type
      /\ get info "serial_number" = opt_val serial_number
      /\ (connection_type <> "wifi" ->
          get info "ip_address" = PyNone /\ st' = st4)
      /\ (connection_type = "wifi" ->
          exists ip, get_device_ip run serial st4 = (Ok ip, st')
                     /\ get info "ip_address" = opt_val ip))
  /\ (all = false ->
      forall info, fst (get_device_info run serial st) <> Ok (Some info))
  /\ (connection_type <> "wifi" ->
      exists o, get_device_info run serial st = (Ok o, st4)
                /\ (o = None <-> all = false))
  /\ (connection_type = "wifi" ->
      forall r st5, get_device_ip run serial st4 = (r, st5) ->
      match r with
      | Ok _ => exists o, get_device_info run serial st = (Ok o, st5)
                          /\ (o = None <-> all = false)
      | Raise e => get_device_info run serial st = (Raise e, st5)
      end).
Proof.
  intros H1 H2 H3 H4 all.
  assert (E : get_device_info run serial st
              = (ip_address <- (if connection_type =? "wifi"
                                then get_device_ip run serial else ret None);;
                 if all
                 then ret (Some [("model", opt_val model);
                                 ("device_type", opt_val device_type);
                                 ("serial_number", opt_val serial_number);
                                 ("ip_address",
                                  opt_val (if connection_type =? "usb"
                                           then None else ip_address))])
                 else ret None) st4).
  { unfold get_device_info.
    unfold bind at 1. rewrite H1.
    unfold bind at 1. rewrite H2.
    unfold bind at 1. rewrite H3.
    unfold bind at 1. rewrite H4. reflexivity. }
  rewrite E. clear E H1 H2 H3 H4. unfold bind.
  destruct (String.eqb_spec connection_type "wifi") as [-> | Hc].
  - change ("wifi" =? "usb") with false. cbv iota.
    split; [|split; [|split]].
    + intros info st' H.
      destruct (get_device_ip run serial st4) as [[ip|e] st5];
        [|discriminate].
      destruct all; [|discriminate]. injection H as <- <-.
      do 5 (split; [reflexivity|]). split; [congruence|].
      intros _. now exists ip.
    + intros A info.
      destruct (get_device_ip run serial st4) as [[ip|e] st5];
        [|discriminate].
      rewrite A. discriminate.
    + congruence.
    + intros _ r st5 ->. destruct r as [ip|e]; [|reflexivity].
      destruct all.
      * eexists. split; [reflexivity|]. split; discriminate.
      * exists None. split; [reflexivity|]. now split.
  - split; [|split; [|split]].
    + intros info st' H.
      destruct all; [|discriminate]. injection H as <- <-.
      do 5 (split; [reflexivity|]). split; [|congruence].
      intros _. now destruct (connection_type =? "usb").
    + intros A info. rewrite A. discriminate.
    + intros _. destruct all.
      * eexists. split; [reflexivity|]. split; discriminate.
      * exists None. split; [reflexivity|]. now split.
    + congruence.
Qed.

(** ** What an update of a known record keeps *)

Lemma fills_refl k d : fills k d d.
Proof. split; auto. Qed.

Lemma fills_set k d v : truthy (get d k) = false -> fills k d (setitem d k v).
Proof.
  intros H. split; [congruence|]. right. now exists v.
Qed.

Lemma fills_other k d d' k' : fills k d d' -> k' <> k -> field d' k' = field d k'.
Proof.
  intros [_ [-> | [v ->]]] H; [reflexivity|].
  now apply field_setitem_other.
Qed.

Lemma fills_same k d d' :
  fills k d d' -> truthy (get d k) = true -> field d' k = field d k.
Proof. intros [H _] T. now rewrite (H T). Qed.

Lemma fills_present k d d' k0 :
  fills k d d' -> field d k0 <> None -> field d' k0 <> None.
Proof.
  intros [_ [-> | [v ->]]] H; [assumption|].
  destruct (string_dec k0 k) as [-> | Hne].
  - now rewrite field_setitem_same.
  - now rewrite field_setitem_other.
Qed.

Lemma fills_filled k d d' :
  fills k d d' -> truthy (get d k) = true \/ d' <> d -> field d' k <> None.
Proof.
  intros [H1 H2] [T | N].
  - rewrite (H1 T). rewrite get_field in T.
    now destruct (field d k).
  - destruct H2 as [-> | [v ->]]; [congruence|].
    now rewrite field_setitem_same.
Qed.

Lemma truthy_get_field d d' k :
  field d' k = field d k -> truthy (get d' k) = truthy (get d k).
Proof. intros H. now rewrite !get_field, H. Qed.

Lemma update_known_stages serial status d :
  ensures (update_known run serial status d)
    (fun d' => exists d1 d2 d3 d4,
       fills "model" d d1 /\ field d1 "model" <> None
       /\ fills "device_type" d1 d2 /\ field d2 "device_type" <> None
       /\ fills "ip_address" d2 d3
       /\ fills "ip_address" d3 d4
       /\ (d' = d4 \/ d' = setitem d4 "status" (PyStr status))
       /\ field d' "status" = Some (PyStr status)).
Proof.
  unfold update_known.
  apply ensures_bind
    with (P := fun d1 => fills "model" d d1 /\ field d1 "model" <> None).
  { destruct (truthy (get d "model")) eqn:T.
    - apply ensures_ret. split; [apply fills_refl|].
      rewrite get_field in T. now destruct (field d "model").
    - eapply ensures_bind; [apply ensures_any|]. intros out _.
      apply ensures_ret. split; [now apply fills_set|].
      now rewrite field_setitem_same. }
  intros d1 [F1 P1].
  apply ensures_bind
    with (P := fun d2 => fills "device_type" d1 d2
                         /\ field d2 "device_type" <> None).
  { destruct (truthy (get d1 "device_type")) eqn:T.
    - apply ensures_ret. split; [apply fills_refl|].
      rewrite get_field in T. now destruct (field d1 "device_type").
    - eapply ensures_bind; [apply ensures_any|]. intros out _.
      apply ensures_ret. split; [now apply fills_set|].
      now rewrite field_setitem_same. }
  intros d2 [F2 P2].
  eapply ensures_bind; [apply ensures_any|]. intros connection_type _.
  apply ensures_bind with (P := fills "ip_address" d2).
  { destruct (truthy (get d2 "ip_address")) eqn:T;
      rewrite ?andb_false_r; simpl negb;
      [apply ensures_ret, fills_refl|].
    destruct (connection_type =? "wifi"); simpl;
      [|apply ensures_ret, fills_refl].
    eapply ensures_bind; [apply ensures_any|]. intros out _. cbv zeta.
    destruct (negb (is_empty (text_of out)));
      [|apply ensures_ret, fills_refl].
    eapply ensures_bind; [apply ensures_any|]. intros a _.
    apply ensures_ret. now apply fills_set. }
  intros d3 F3. cbv zeta. apply ensures_ret.
  set (d4 := if (connection_type =? "usb")
                && negb (truthy (get d3 "ip_address"))
             then setitem d3 "ip_address" (PyStr "") else d3).
  assert (F4 : fills "ip_address" d3 d4).
  { unfold d4. destruct (truthy (get d3 "ip_address")) eqn:T;
      rewrite ?andb_false_r; simpl negb; [apply fills_refl|].
    destruct (connection_type =? "usb"); simpl;
      [now apply fills_set | apply fills_refl]. }
  exists d1, d2, d3, d4. repeat (split; [assumption|]).
  destruct (pyval_eqb (get d4 "status") (PyStr status)) eqn:E; simpl.
  - split; [now left|]. rewrite get_field in E.
    destruct (field d4 "status") as [[|x]|]; try discriminate.
    simpl in E. apply String.eqb_eq in E. now subst.
  - split; [now right | apply field_setitem_same].
Qed.

(** X4: the update of a record that exists only fills in: a non-empty
    model, device class or address is left as it was, no key is removed,
    the keys [model] and [device_type] are there afterwards, and the
    status ends as the current status. *)
Theorem update_known_fills_only serial status d (st st' : state World) d' :
  update_known run serial status d st = (Ok d', st') ->
  (forall k, In k ["model"; "device_type"; "ip_address"] ->
             truthy (get d k) = true -> field d' k = field d k)
  /\ (forall k, field d k <> None -> field d' k <> None)
  /\ field d' "model" <> None
  /\ field d' "device_type" <> None
  /\ field d' "status" = Some (PyStr status).
Proof.
  intros H.
  destruct (update_known_stages serial status d st H)
    as (d1 & d2 & d3 & d4 & F1 & P1 & F2 & P2 & F3 & F4 & F5 & S).
  assert (O : forall k, k <> "status" -> field d' k = field d4 k).
  { intros k Hk. destruct F5 as [-> | ->]; [reflexivity|].
    now apply field_setitem_other. }
  repeat split.
  - intros k Hk T. simpl in Hk.
    destruct Hk as [<- | [<- | [<- | []]]]; rewrite O by discriminate.
    + rewrite (fills_other F4), (fills_other F3), (fills_other F2)
        by discriminate.
      now apply fills_same.
    + rewrite (fills_other F4), (fills_other F3) by discriminate.
      assert (E1 : field d1 "device_type" = field d "device_type")
        by (apply (fills_other F1); discriminate).
      rewrite (fills_same F2); [exact E1|].
      now rewrite (truthy_get_field d d1 "device_type" E1).
    + assert (E2 : field d2 "ip_address" = field d "ip_address").
      { rewrite (fills_other F2), (fills_other F1) by discriminate.
        reflexivity. }
      assert (E3 : field d3 "ip_address" = field d "ip_address").
      { rewrite (fills_same F3); [exact E2|].
        now rewrite (truthy_get_field d d2 "ip_address" E2). }
      rewrite (fills_same F4); [exact E3|].
      now rewrite (truthy_get_field d d3 "ip_address" E3).
  - intros k Hk.
    assert (H4 : field d4 k <> None).
    { now apply (fills_present k F4), (fills_present k F3),
        (fills_present k F2), (fills_present k F1). }
    destruct F5 as [-> | ->]; [assumption|].
    destruct (string_dec k "status") as [-> | Hne].
    + now rewrite field_setitem_same.
    + now rewrite field_setitem_other.
  - rewrite O by discriminate.
    now apply (fills_present "model" F4), (fills_present "model" F3),
      (fills_present "model" F2).
  - rewrite O by discriminate.
    now apply (fills_present "device_type" F4),
      (fills_present "device_type" F3).
  - exact S.
Qed.

(** ** The index of the registry *)

Lemma pyval_eqb_eq a b : pyval_eqb a b = true <-> a = b.
Proof.
  destruct a as [|x], b as [|y]; simpl; split; try congruence; auto.
  - intros H. apply String.eqb_eq in H. now subst.
  - intros [= ->]. apply String.eqb_refl.
Qed.

Lemma pyval_eqb_refl a : pyval_eqb a a = true.
Proof. now apply pyval_eqb_eq. Qed.

Lemma index_store_same (di : index) k i :
  dict_lookup pyval_eqb (dict_store pyval_eqb di k i) k = Some i.
Proof.
  induction di as [|[k0 i0] di IH]; simpl.
  - now rewrite pyval_eqb_refl.
  - destruct (pyval_eqb k0 k) eqn:E; simpl; rewrite E; auto.
Qed.

Lemma index_store_other (di : index) k i k' :
  k' <> k ->
  dict_lookup pyval_eqb (dict_store pyval_eqb di k i) k'
  = dict_lookup pyval_eqb di k'.
Proof.
  intros Hne. induction di as [|[k0 i0] di IH]; simpl.
  - destruct (pyval_eqb k k') eqn:E; [|reflexivity].
    apply pyval_eqb_eq in E. congruence.
  - destruct (pyval_eqb k0 k) eqn:E; simpl.
    + destruct (pyval_eqb k0 k') eqn:E'; [|reflexivity].
      apply pyval_eqb_eq in E, E'. congruence.
    + now destruct (pyval_eqb k0 k').
Qed.

Lemma index_from_lookup r : forall n acc di k,
  index_from n r acc = Ok di ->
  dict_lookup pyval_eqb di k
  = match last_pos k r with
    | Some j => Some (n + j)
    | None => dict_lookup pyval_eqb acc k
    end.
Proof.
  induction r as [|d rest IH]; intros n acc di k; simpl.
  - now intros [= ->].
  - unfold getitem, serial_of, field.
    destruct (dict_lookup String.eqb d "serial") as [s|]; simpl;
      [|discriminate].
    intros H. rewrite (IH _ _ _ k H).
    destruct (last_pos k rest) as [j|].
    + f_equal. lia.
    + destruct (pyval_eqb s k) eqn:E.
      * apply pyval_eqb_eq in E. subst. rewrite index_store_same.
        f_equal. lia.
      * apply index_store_other. intros ->.
        now rewrite pyval_eqb_refl in E.
Qed.

Lemma last_pos_spec k r i :
  last_pos k r = Some i <->
  (exists d, nth_error r i = Some d /\ serial_of d = Some k)
  /\ (forall j d, i < j -> nth_error r j = Some d -> serial_of d <> Some k).
Proof.
  revert i. induction r as [|d rest IH]; intros i; simpl.
  - split; [discriminate|]. intros [(d & H & _) _]. now destruct i.
  - destruct (last_pos k rest) as [j|] eqn:E.
    + split.
      * intros [= <-]. destruct (proj1 (IH j) eq_refl) as [Hd Hl].
        split; [exact Hd|]. intros [|j'] d' Hlt; [lia|]. simpl.
        apply Hl. lia.
      * intros [(d0 & Hd & Hs) Hl]. destruct i as [|i].
        { destruct (proj1 (IH j) eq_refl) as [(dj & Hj & Hsj) _].
          exfalso. apply (Hl (S j) dj); [lia | exact Hj | exact Hsj]. }
        f_equal. simpl in Hd.
        assert (H : Some j = Some i); [|congruence].
        apply IH. split; [now exists d0|].
        intros j' d' Hlt. apply (Hl (S j')). lia.
    + assert (N : forall j d', nth_error rest j = Some d' ->
                               serial_of d' <> Some k).
      { intros j d' Hj Hs.
        assert (Hex : exists m, last_pos k rest = Some m); [|].
        { clear IH E. revert j Hj.
          induction rest as [|x rest IHr]; intros j Hj; [now destruct j|].
          simpl. destruct (last_pos k rest) as [m|] eqn:Em; [eauto|].
          destruct j as [|j]; simpl in Hj.
          - injection Hj as ->. rewrite Hs, pyval_eqb_refl. eauto.
          - destruct (IHr j Hj) as [m Hm]. discriminate. }
        destruct Hex as [m Hm]. congruence. }
      split.
      * destruct (serial_of d) as [s|] eqn:Es; [|discriminate].
        destruct (pyval_eqb s k) eqn:Ek; [|discriminate].
        intros [= <-]. apply pyval_eqb_eq in Ek. subst s. split.
        { exists d. now split. }
        intros [|j] d' Hlt; [lia|]. simpl. apply N.
      * intros [(d0 & Hd & Hs) _]. destruct i as [|i]; simpl in Hd.
        { injection Hd as ->. now rewrite Hs, pyval_eqb_refl. }
        exfalso. exact (N i d0 Hd Hs).
Qed.

Lemma index_from_raises r : forall n acc,
  (exists di, index_from n r acc = Ok di)
  \/ (index_from n r acc = Raise (KeyError "serial")
      /\ exists d, In d r /\ serial_of d = None).
Proof.
  induction r as [|d rest IH]; intros n acc; simpl.
  - left. eauto.
  - unfold getitem. destruct (dict_lookup String.eqb d "serial") as [s|] eqn:E;
      simpl.
    + destruct (IH (S n) (dict_store pyval_eqb acc s n))
        as [H | (H & d0 & Hin & Hs)]; [now left|].
      right. split; [assumption|]. exists d0. auto.
    + right. split; [reflexivity|]. exists d. auto.
Qed.

Lemma index_from_ok r : forall n acc di,
  index_from n r acc = Ok di -> forall d, In d r -> serial_of d <> None.
Proof.
  induction r as [|d rest IH]; intros n acc di; simpl; [now intros _ d|].
  unfold getitem, serial_of, field.
  destruct (dict_lookup String.eqb d "serial") as [s|] eqn:E; simpl;
    [|discriminate].
  intros H d0 [<- | Hin].
  - unfold field. congruence.
  - exact (IH _ _ _ H d0 Hin).
Qed.

Lemma build_index_total r :
  (forall d, In d r -> serial_of d <> None) -> exists di, build_index r = Ok di.
Proof.
  intros H. unfold build_index.
  destruct (index_from_raises r 0 []) as [Hok | (_ & d & Hin & Hs)];
    [assumption|].
  now destruct (H d Hin).
Qed.

(** X5: the index of the registry is built exactly when every record has
    a serial key (otherwise [KeyError] on [serial] is raised), and it maps
    a serial to the last position of the registry that holds it: of
    several records with one serial only the last one is indexed. *)
Theorem build_index_last_position r :
  (forall di k i,
      build_index r = Ok di ->
      (dict_lookup pyval_eqb di k = Some i <->
       (exists d, nth_error r i = Some d /\ serial_of d = Some k)
       /\ (forall j d, i < j -> nth_error r j = Some d ->
                        serial_of d <> Some k)))
  /\ ((exists di, build_index r = Ok di) <->
      (forall d, In d r -> serial_of d <> None))
  /\ (build_index r = Raise (KeyError "serial") <->
      (exists d, In d r /\ serial_of d = None)).
Proof.
  unfold build_index. split; [|split].
  - intros di k i H. rewrite (index_from_lookup _ _ _ k H). simpl.
    rewrite <- last_pos_spec. now destruct (last_pos k r).
  - split.
    + intros [di H]. exact (index_from_ok _ _ _ H).
    + intros H. destruct (index_from_raises r 0 [])
        as [Hok | (_ & d & Hin & Hs)]; [assumption|].
      now destruct (H d Hin).
  - split.
    + intros H. destruct (index_from_raises r 0 [])
        as [[di Hok] | (_ & Hex)]; [congruence | assumption].
    + intros (d & Hin & Hs). destruct (index_from_raises r 0 [])
        as [[di Hok] | (H & _)]; [|assumption].
      now destruct (index_from_ok _ _ _ Hok d Hin).
Qed.

(** ** Invariants of a pass *)

Section Pass.

(** A property of the registry and its index that each reconciled serial
    keeps is kept by the whole pass. *)
Variable I : registry -> index -> Prop.

Hypothesis I_device : forall serial status r di,
  is_ip_port serial = false -> I r di ->
  ensures (reconcile_device run serial status r di)
          (fun p => I (fst p) (snd p)).

Lemma reconcile_line_inv line r di :
  I r di -> ensures (reconcile_line run line r di) (fun p => I (fst p) (snd p)).
Proof.
  intros H. unfold reconcile_line.
  destruct (negb (is_empty (strip line))
            && negb (strip line =? "List of devices attached"));
    [|now apply ensures_ret].
  eapply ensures_bind; [apply ensures_any|]. intros serial _. cbv zeta.
  destruct (is_ip_port serial) eqn:E; simpl; [now apply ensures_ret|].
  destruct (is_empty serial); [now apply ensures_ret|].
  eapply ensures_bind; [apply ensures_any|]. intros status _.
  now apply I_device.
Qed.

Lemma reconcile_lines_inv lines : forall r di,
  I r di ->
  ensures (reconcile_lines run lines r di) (fun p => I (fst p) (snd p)).
Proof.
  induction lines as [|line rest IH]; intros r di H; simpl.
  - now apply ensures_ret.
  - eapply ensures_bind; [now apply reconcile_line_inv|].
    intros [r1 di1] H1. now apply IH.
Qed.

Lemma update_device_map_inv (st st' : state World) :
  (forall di, build_index (registry_of st) = Ok di -> I (registry_of st) di) ->
  update_device_map run st = (Ok tt, st') ->
  exists r' di', device_map_json st' = Some r' /\ I r' di'.
Proof.
  intros H0. unfold update_device_map, bind at 1.
  pose proof (keeps_adb run "adb devices" st) as K0.
  destruct (adb_command run "adb devices" st) as [[devices_list|e] st0] eqn:E0;
    simpl in K0; [|discriminate].
  assert (R0 : registry_of st0 = registry_of st)
    by (unfold registry_of; now rewrite K0).
  unfold bind at 1.
  assert (L : load_device_map st0 = (Ok (registry_of st0), st0))
    by (unfold load_device_map, registry_of;
        now destruct (device_map_json st0)).
  rewrite L. unfold bind at 1, lift at 1. rewrite R0.
  destruct (build_index (registry_of st)) as [di|e] eqn:B; [|discriminate].
  specialize (H0 di eq_refl). unfold bind.
  set (m := if truthy_text devices_list
            then reconcile_lines run (splitlines (text_of devices_list))
                                 (registry_of st) di
            else ret (registry_of st, di)).
  assert (Gm : ensures m (fun p => I (fst p) (snd p)))
    by (unfold m; destruct (truthy_text devices_list);
        [now apply reconcile_lines_inv | now apply ensures_ret]).
  destruct (m st0) as [[p|e] st1] eqn:E1; [|discriminate].
  unfold save_device_map. intros [= <-]. simpl.
  exists (fst p), (snd p). split; [reflexivity|]. eapply Gm; eauto.
Qed.

End Pass.

(** ** Serials stay unique *)

Lemma in_list_set (A : Type) (l : list A) i x y :
  In y (list_set l i x) -> y = x \/ In y l.
Proof.
  revert i; induction l as [|h t IH]; intros [|i]; simpl; auto.
  - intros [<- | H]; auto.
  - intros [<- | H]; auto. destruct (IH i H); auto.
Qed.

Lemma map_list_set (A B : Type) (f : A -> B) (l : list A) i x y :
  nth_error l i = Some y -> f x = f y -> map f (list_set l i x) = map f l.
Proof.
  revert i; induction l as [|h t IH]; intros [|i]; simpl; try discriminate.
  - intros [= ->] ->. reflexivity.
  - intros H E. now rewrite (IH i H E).
Qed.

Lemma nodup_snoc (A : Type) (l : list A) x :
  NoDup l -> ~ In x l -> NoDup (l ++ [x]).
Proof.
  intros Hl Hx. induction Hl as [|y l Hy Hl IH]; simpl.
  - constructor; [intros []|constructor].
  - constructor.
    + rewrite in_app_iff. intros [H | [-> | []]]; [auto|].
      apply Hx. now left.
    + apply IH. intros H. apply Hx. now right.
Qed.

Lemma last_pos_member k r d :
  In d r -> serial_of d = Some k -> last_pos k r <> None.
Proof.
  induction r as [|x rest IH]; simpl; [now intros []|].
  intros [-> | Hin] Hs.
  - destruct (last_pos k rest); [discriminate|].
    now rewrite Hs, pyval_eqb_refl.
  - specialize (IH Hin Hs). now destruct (last_pos k rest).
Qed.

Lemma build_index_covers r di : build_index r = Ok di -> covers di r.
Proof.
  intros H d Hin. unfold build_index in H.
  pose proof (index_from_ok _ _ _ H d Hin) as Hs.
  destruct (serial_of d) as [s|] eqn:E; [|congruence].
  exists s. split; [reflexivity|].
  rewrite (index_from_lookup _ _ _ s H).
  pose proof (last_pos_member _ _ Hin E).
  now destruct (last_pos s r).
Qed.

Lemma unique_serials_device serial status r di :
  is_ip_port serial = false ->
  covers di r /\ NoDup (map serial_of r) ->
  ensures (reconcile_device run serial status r di)
          (fun p => covers (snd p) (fst p) /\ NoDup (map serial_of (fst p))).
Proof.
  intros _ [C N]. unfold reconcile_device.
  destruct (status =? "device").
  - destruct (dict_lookup pyval_eqb di (PyStr serial)) as [idx|] eqn:L.
    + apply ensures_bind with (P := fun d => nth_error r idx = Some d).
      { apply ensures_lift. unfold item.
        destruct (nth_error r idx); congruence. }
      intros d Hd.
      eapply ensures_bind; [apply update_known_frame|]. intros d' Hf.
      apply ensures_ret. simpl.
      assert (Es : serial_of d' = serial_of d) by apply Hf, untouched_serial.
      split.
      * intros d0 Hin. apply in_list_set in Hin. destruct Hin as [-> | Hin].
        { rewrite Es. apply C. eapply nth_error_In; eauto. }
        now apply C.
      * now rewrite (@map_list_set _ _ serial_of r idx d' d Hd Es).
    + eapply ensures_bind; [apply ensures_any|]. intros [info|] _;
        apply ensures_ret; simpl; [|now split].
      split.
      * intros d0 Hin. apply in_app_iff in Hin.
        destruct Hin as [Hin | [<- | []]].
        { destruct (C d0 Hin) as (s & Hs & Hl). exists s.
          split; [assumption|].
          destruct (pyval_eqb_eq s (PyStr serial)) as [_ Hq].
          destruct (pyval_eqb s (PyStr serial)) eqn:E.
          - apply pyval_eqb_eq in E. subst s.
            now rewrite index_store_same.
          - rewrite index_store_other; [assumption|].
            intros ->. now rewrite pyval_eqb_refl in E. }
        exists (PyStr serial). split; [reflexivity|].
        now rewrite index_store_same.
      * rewrite map_app. apply nodup_snoc; [assumption|].
        simpl. intros Hin. apply in_map_iff in Hin.
        destruct Hin as (d0 & Hs & Hin).
        destruct (C d0 Hin) as (s & Hs' & Hl).
        change (serial_of (new_device serial status info))
          with (Some (PyStr serial)) in Hs.
        congruence.
  - eapply ensures_bind; [apply ensures_any|]. intros e _.
    apply ensures_ret. now split.
Qed.

(** X6: a pass creates no second record for a serial: when the serials of
    the registry are pairwise different before a pass that ends normally,
    they are pairwise different after it. *)
Theorem serials_stay_unique (st st' : state World) :
  update_device_map run st = (Ok tt, st') ->
  NoDup (map serial_of (registry_of st)) ->
  NoDup (map serial_of (registry_of st')).
Proof.
  intros H N.
  destruct (update_device_map_inv
              (fun r di => covers di r /\ NoDup (map serial_of r))
              unique_serials_device st
              (fun di B => conj (build_index_covers _ B) N) H)
    as (r' & di' & Hf & _ & N').
  unfold registry_of at 1. now rewrite Hf.
Qed.

(** ** Records appended by a pass *)

Lemma ensures_conj (A : Type) (m : M World A) (P Q : A -> Prop) :
  ensures m P -> ensures m Q -> ensures m (fun a => P a /\ Q a).
Proof. intros HP HQ st a st' E. split; [eapply HP | eapply HQ]; eauto. Qed.

Lemma update_known_complete serial d :
  complete d -> ensures (update_known run serial "device" d) complete.
Proof.
  intros (Hn & Hs & Hm & Ht & _).
  eapply ensures_weaken;
    [apply ensures_conj; [apply update_known_frame | apply update_known_stages]|].
  intros d' (Hf & d1 & d2 & d3 & d4 & F1 & _ & F2 & _ & F3 & F4 & F5 & S).
  assert (O : forall k, k <> "status" -> field d' k = field d4 k).
  { intros k Hk. destruct F5 as [-> | ->]; [reflexivity|].
    now apply field_setitem_other. }
  assert (E1 : field d1 "device_type" = field d "device_type")
    by (apply (fills_other F1); discriminate).
  repeat split.
  - now rewrite (Hf _ untouched_name).
  - destruct Hs as [x Hx]. exists x. now rewrite (Hf _ untouched_serial).
  - rewrite (truthy_get_field d d' "model"); [exact Hm|].
    rewrite O, (fills_other F4), (fills_other F3), (fills_other F2)
      by discriminate.
    now apply fills_same.
  - rewrite (truthy_get_field d d' "device_type"); [exact Ht|].
    rewrite O, (fills_other F4), (fills_other F3) by discriminate.
    rewrite (fills_same F2); [exact E1|].
    now rewrite (truthy_get_field d d1 "device_type" E1).
  - exact S.
Qed.

Lemma new_device_complete serial info :
  truthy (get info "model") = true ->
  truthy (get info "device_type") = true ->
  complete (new_device serial "device" info).
Proof.
  intros Hm Ht. unfold complete. repeat split.
  - now exists serial.
  - unfold get in *. simpl. unfold get_default.
    now destruct (dict_lookup String.eqb info "model").
  - unfold get in *. simpl. unfold get_default.
    now destruct (dict_lookup String.eqb info "device_type").
Qed.

Lemma appended_complete_device n0 serial status r di :
  is_ip_port serial = false ->
  (n0 <= length r
   /\ forall i d, n0 <= i -> nth_error r i = Some d -> complete d) ->
  ensures (reconcile_device run serial status r di)
    (fun p => n0 <= length (fst p)
              /\ forall i d, n0 <= i -> nth_error (fst p) i = Some d ->
                              complete d).
Proof.
  intros _ [L C]. unfold reconcile_device.
  destruct (status =? "device") eqn:Es.
  - apply String.eqb_eq in Es. subst status.
    destruct (dict_lookup pyval_eqb di (PyStr serial)) as [idx|].
    + apply ensures_bind with (P := fun d => nth_error r idx = Some d).
      { apply ensures_lift. unfold item.
        destruct (nth_error r idx); congruence. }
      intros d Hd.
      apply ensures_bind
        with (P := fun d' => n0 <= idx -> complete d').
      { intros st d' st' E Hi.
        exact (update_known_complete serial (C idx d Hi Hd) st E). }
      intros d' Hd'. apply ensures_ret. simpl.
      split; [now rewrite length_list_set|].
      intros i x Hi. rewrite nth_error_list_set.
      destruct (Nat.eqb idx i) eqn:E.
      * apply Nat.eqb_eq in E. subst i. rewrite Hd. intros [= <-]. auto.
      * now apply C.
    + eapply ensures_bind; [apply get_device_info_complete|].
      intros [info|] Hinfo; apply ensures_ret; simpl; [|now split].
      destruct (Hinfo info eq_refl) as (_ & Hm & Ht & _).
      split; [rewrite length_app; simpl; lia|].
      intros i x Hi Hx.
      destruct (Nat.lt_ge_cases i (length r)) as [Hlt | Hge].
      * rewrite nth_error_app1 in Hx by assumption. now apply (C i).
      * rewrite nth_error_app2 in Hx by assumption.
        destruct (i - length r) as [|k]; simpl in Hx.
        { injection Hx as <-. now apply new_device_complete. }
        now destruct k.
  - eapply ensures_bind; [apply ensures_any|]. intros e _.
    apply ensures_ret. now split.
Qed.

(** X7: a pass never creates a partial record: every record found after a
    pass at a position beyond the end of the earlier registry has an
    empty name, a serial, a non-empty model and device class, and the
    status [device]. *)
Theorem appended_records_are_complete (st st' : state World) i d :
  update_device_map run st = (Ok tt, st') ->
  length (registry_of st) <= i ->
  nth_error (registry_of st') i = Some d ->
  complete d.
Proof.
  intros H Hi Hd.
  destruct (update_device_map_inv
              (fun r (_ : index) =>
                 length (registry_of st) <= length r
                 /\ forall i d, length (registry_of st) <= i ->
                                nth_error r i = Some d -> complete d)
              (@appended_complete_device (length (registry_of st))) st)
    with (st' := st') as (r' & _ & Hf & _ & C).
  - intros di _. split; [lia|]. intros j x Hj Hx.
    apply nth_error_None in Hj. congruence.
  - exact H.
  - unfold registry_of at 1 in Hd. rewrite Hf in Hd. exact (C i d Hi Hd).
Qed.

(** ** A pass over a listing without devices *)

Lemma item_first_field line :
  item (split_on TAB line) 0 = Ok (hd "" (split_on TAB line)).
Proof.
  unfold item. destruct (split_on TAB line) eqn:E; [|reflexivity].
  destruct line as [|c line]; simpl in E; [discriminate|].
  destruct (Ascii.eqb c TAB); [discriminate|].
  now destruct (split_on TAB line).
Qed.

Lemma reconcile_line_skipped line r di (st : state World) :
  skipped line = true -> reconcile_line run line r di st = (Ok (r, di), st).
Proof.
  unfold skipped, reconcile_line. intros H.
  destruct (is_empty (strip line)); [reflexivity|].
  destruct (strip line =? "List of devices attached"); [reflexivity|].
  simpl in *. unfold bind, lift. rewrite item_first_field.
  destruct (is_ip_port (hd "" (split_on TAB line))); [reflexivity|].
  simpl in H. now rewrite H.
Qed.

Lemma reconcile_lines_skipped lines r di (st : state World) :
  Forall (fun line => skipped line = true) lines ->
  reconcile_lines run lines r di st = (Ok (r, di), st).
Proof.
  induction 1 as [|line rest Hl _ IH]; simpl; [reflexivity|].
  unfold bind. now rewrite (reconcile_line_skipped line r di st Hl).
Qed.

(** X8: when the flat listing names no device (the query fails or prints
    nothing, or every line is blank, the header, or has an empty or
    IPv4:port first field) and every record has a serial, the pass runs
    that one query, writes the registry back as it was (creating the file
    when it was absent) and ends normally. *)
Theorem pass_without_devices (st : state World) :
  Forall (fun line => skipped line = true) (flat_listing run st) ->
  (forall d, In d (registry_of st) -> serial_of d <> None) ->
  update_device_map run st
  = (Ok tt,
     mkState (snd (run "adb devices" (world st)))
             (journal st ++ [Adb "adb devices"])
             (Some (registry_of st)) (stdin st)).
Proof.
  intros Hl Hs.
  destruct (build_index_total _ Hs) as [di Hdi].
  unfold update_device_map, bind, adb_command, flat_listing in *.
  destruct (run "adb devices" (world st)) as [out w]; simpl in *.
  unfold load_device_map, registry_of in *. simpl.
  destruct (device_map_json st) as [r|]; unfold lift; rewrite Hdi;
    (destruct (truthy_text (option_map strip out));
     [rewrite (reconcile_lines_skipped _ _ _ Hl) | unfold ret];
     reflexivity).
Qed.

(** ** The menu *)

Lemma ensures_raise (A : Type) e (Q : A -> Prop) : ensures (@raise World A e) Q.
Proof. intros st a st' E. discriminate E. Qed.

Lemma select_result devices choice :
  ensures (select run devices choice) (fun c => c = 0%Z \/ c = choice).
Proof.
  unfold select.
  eapply ensures_bind; [apply ensures_any|]. intros d _.
  eapply ensures_bind; [apply ensures_any|]. intros serial _.
  eapply ensures_bind; [apply ensures_any|]. intros [|] _;
    apply ensures_ret; auto.
Qed.

Lemma menu_result pending devices :
  ensures (menu run pending devices)
          (fun c => (0 <= c <= Z.of_nat (length devices))%Z).
Proof.
  induction pending as [|line rest IH]; simpl.
  - eapply ensures_bind; [apply ensures_any|]. intros _ _.
    eapply ensures_bind; [apply ensures_any|]. intros text _.
    apply ensures_raise.
  - eapply ensures_bind; [apply ensures_any|]. intros _ _.
    eapply ensures_bind; [apply ensures_any|]. intros text _.
    destruct (int_of_str text) as [choice|]; [|exact IH].
    destruct ((0 <=? choice)%Z && (choice <=? Z.of_nat (length devices))%Z)
      eqn:E; [|exact IH].
    apply andb_true_iff in E. destruct E as [E1 E2].
    apply Z.leb_le in E1, E2.
    eapply ensures_weaken; [apply select_result|].
    intros c [-> | ->]; lia.
Qed.

(** X9: the number the menu returns is 0 or the position of a listed
    device: it lies between 0 and the number of devices, so the record a
    caller reads at that position minus one exists whenever the number is
    not 0. *)
Theorem menu_choice_in_range devices (st st' : state World) c :
  display_device_menu run devices st = (Ok c, st') ->
  (0 <= c <= Z.of_nat (length devices))%Z
  /\ (c <> 0%Z -> exists d, py_item devices (c - 1) = Ok d).
Proof.
  intros H. unfold display_device_menu in H.
  pose proof (menu_result (stdin st) devices st H) as R. cbv beta in R.
  split; [exact R|]. intros Hc. unfold py_item, item.
  replace (0 <=? c - 1)%Z with true by (symmetry; apply Z.leb_le; lia).
  destruct (nth_error devices (Z.to_nat (c - 1))) as [d|] eqn:E; [eauto|].
  apply nth_error_None in E. lia.
Qed.

(** X11: on a line that reads as a number [c] between 1 and the number of
    devices, the menu reads the serial of the [c]-th record, runs the
    authorization check on it and returns [c] when the check answers
    true and 0, as for an exit, when it answers false. *)
Theorem menu_checks_the_choice devices text typed c d (st : state World) :
  stdin st = text :: typed ->
  int_of_str text = Some c ->
  (1 <= c <= Z.of_nat (length devices))%Z ->
  nth_error devices (Z.to_nat (c - 1)) = Some d ->
  display_device_menu run devices st
  = (_ <- lift (print_listing devices);;
     _ <- @input World;;
     serial <- lift (getitem d "serial");;
     authorized <- is_device_authorized run serial;;
     ret (if authorized then c else 0%Z)) st.
Proof.
  intros Hin Hint Hc Hd. unfold display_device_menu. rewrite Hin.
  simpl menu. unfold bind, lift.
  destruct (print_listing devices); [|reflexivity].
  rewrite (input_next st Hin), Hint.
  replace ((0 <=? c)%Z && (c <=? Z.of_nat (length devices))%Z)
    with true by (symmetry; apply andb_true_iff; split; apply Z.leb_le; lia).
  unfold select, bind, lift, py_item, item.
  replace (0 <=? c - 1)%Z with true by (symmetry; apply Z.leb_le; lia).
  rewrite Hd.
  destruct (getitem d "serial") as [serial|e]; [|reflexivity].
  destruct (is_device_authorized run serial _) as [[[|]|e] st1]; reflexivity.
Qed.

(** ** The commands a program runs *)

Section Logs.

Variable P : event -> Prop.

Lemma logs_ret (A : Type) (a : A) : logs P (@ret World A a).
Proof. intros st. exists []. now rewrite app_nil_r. Qed.

Lemma logs_raise (A : Type) e : logs P (@raise World A e).
Proof. intros st. exists []. now rewrite app_nil_r. Qed.

Lemma logs_lift (A : Type) (r : result A) : logs P (@lift World A r).
Proof. intros st. exists []. now rewrite app_nil_r. Qed.

Lemma logs_input : logs P (@input World).
Proof.
  intros st. exists []. rewrite app_nil_r. unfold input.
  now destruct (stdin st).
Qed.

Lemma logs_load : logs P (@load_device_map World).
Proof.
  intros st. exists []. rewrite app_nil_r. unfold load_device_map.
  now destruct (device_map_json st).
Qed.

Lemma logs_save r : logs P (@save_device_map World r).
Proof. intros st. exists []. now rewrite app_nil_r. Qed.

Lemma logs_bind (A B : Type) (m : M World A) (k : A -> M World B) :
  logs P m -> (forall a, logs P (k a)) -> logs P (bind m k).
Proof.
  intros Hm Hk st. destruct (Hm st) as (l1 & E1 & F1). unfold bind.
  destruct (m st) as [[a|e] st1]; simpl in *; [|now exists l1].
  destruct (Hk a st1) as (l2 & E2 & F2). exists (l1 ++ l2)%list.
  split; [now rewrite E2, E1, app_assoc | now apply Forall_app].
Qed.

Lemma logs_adb command : P (Adb command) -> logs P (adb_command run command).
Proof.
  intros H st. exists [Adb command]. unfold adb_command.
  destruct (run command (world st)); simpl. split; [reflexivity|].
  now constructor.
Qed.

End Logs.

(** Walks through a program whose commands are all queries. *)
Ltac logs_queries :=
  repeat first
    [ progress intros
    | apply logs_bind
    | apply logs_ret | apply logs_raise | apply logs_lift
    | apply logs_input | apply logs_load | apply logs_save
    | apply logs_adb; simpl; solve [eauto 10]
    | match goal with
      | |- logs _ (if ?b then _ else _) => destruct b
      | |- logs _ (match ?x with _ => _ end) => destruct x
      | |- logs _ (let _ := _ in _) => cbv zeta
      end
    | solve [auto] ].

Lemma queries_connection_type serial :
  logs is_query (get_device_connection_type run serial).
Proof. unfold get_device_connection_type. logs_queries. Qed.

Lemma queries_status serial : logs is_query (get_device_status run serial).
Proof. unfold get_device_status. logs_queries. Qed.

Lemma queries_ip serial : logs is_query (get_device_ip run serial).
Proof. unfold get_device_ip. logs_queries. Qed.

Lemma queries_info serial : logs is_query (get_device_info run serial).
Proof.
  unfold get_device_info.
  pose proof (queries_connection_type (PyStr serial)).
  pose proof (queries_ip serial).
  logs_queries.
Qed.

Lemma queries_update_known serial status d :
  logs is_query (update_known run serial status d).
Proof.
  unfold update_known.
  pose proof (queries_connection_type (PyStr serial)).
  logs_queries.
Qed.

Lemma queries_reconcile_device serial status r di :
  logs is_query (reconcile_device run serial status r di).
Proof.
  unfold reconcile_device.
  pose proof (queries_info serial).
  pose proof (fun d => queries_update_known serial status d).
  logs_queries.
Qed.

Lemma queries_reconcile_line line r di :
  logs is_query (reconcile_line run line r di).
Proof.
  unfold reconcile_line.
  pose proof queries_status.
  pose proof queries_reconcile_device.
  logs_queries.
Qed.

Lemma queries_reconcile_lines lines : forall r di,
  logs is_query (reconcile_lines run lines r di).
Proof.
  induction lines as [|line rest IH]; intros r di; simpl.
  - apply logs_ret.
  - apply logs_bind; [apply queries_reconcile_line|]. intros p. apply IH.
Qed.

Lemma queries_update_device_map : logs is_query (update_device_map run).
Proof.
  unfold update_device_map.
  pose proof queries_reconcile_lines.
  logs_queries.
Qed.

(** *** Queries are not actions *)

Lemma ends_with_unfold suffix s :
  ends_with suffix s
  = (s =? suffix)
    || match s with
       | EmptyString => false
       | String _ s' => ends_with suffix s'
       end.
Proof. now destruct s. Qed.

Lemma ends_with_self s : ends_with s s = true.
Proof. rewrite ends_with_unfold. now rewrite String.eqb_refl. Qed.

Lemma ends_with_app_r suffix a b :
  ends_with suffix b = true -> ends_with suffix (a ++ b) = true.
Proof.
  intros H. induction a as [|c a IH]; [exact H|].
  change (String c a ++ b) with (String c (a ++ b)).
  rewrite ends_with_unfold, IH. apply orb_true_r.
Qed.

Lemma ends_with_app a suffix : ends_with suffix (a ++ suffix) = true.
Proof. apply ends_with_app_r, ends_with_self. Qed.

(** Two endings of one string: one of them ends the other. *)
Lemma ends_with_both p q s :
  ends_with p s = true -> ends_with q s = true ->
  ends_with p q = true \/ ends_with q p = true.
Proof.
  induction s as [|c s IH]; intros Hp Hq.
  - rewrite ends_with_unfold, orb_false_r in Hp.
    apply String.eqb_eq in Hp. subst p. now right.
  - destruct (String.eqb_spec (String c s) p) as [<- | Np].
    { now right. }
    destruct (String.eqb_spec (String c s) q) as [<- | Nq].
    { now left. }
    rewrite ends_with_unfold in Hp, Hq.
    apply String.eqb_neq in Np, Nq. rewrite Np in Hp. rewrite Nq in Hq.
    now apply IH.
Qed.

Lemma query_ending c :
  is_query (Adb c) ->
  c = "adb devices" \/ c = "adb devices -l"
  \/ ends_with " shell getprop ro.product.model" c = true
  \/ ends_with " shell getprop ro.product.device" c = true
  \/ ends_with " shell getprop ro.serialno" c = true
  \/ ends_with " shell ip addr show wlan0 | grep inet" c = true.
Proof.
  unfold is_query, getprop_query, ip_query.
  intros [H | [H | [[x ->] | [[x ->] | [[x ->] | [x ->]]]]]]; auto;
    do 2 right.
  - left. apply ends_with_app_r. exact (ends_with_app x _).
  - right. left. apply ends_with_app_r. exact (ends_with_app x _).
  - do 2 right. left. apply ends_with_app_r. exact (ends_with_app x _).
  - do 3 right. apply ends_with_app_r. exact (ends_with_app x _).
Qed.

Lemma action_ending c :
  is_action (Adb c) ->
  ends_with " disconnect" c = true \/ ends_with " usb" c = true
  \/ ends_with ":5555" c = true.
Proof.
  intros [[x ->] | [[x ->] | [x ->]]].
  - left. apply ends_with_app_r. exact (ends_with_app x _).
  - right. left. apply ends_with_app_r. exact (ends_with_app x _).
  - right. right. apply ends_with_app_r. exact (ends_with_app x _).
Qed.

Lemma is_query_not_action e : is_query e -> ~ is_action e.
Proof.
  destruct e as [c|serial]; [|intros []].
  intros Q A. apply query_ending in Q. apply action_ending in A.
  destruct Q as [-> | [-> | Q]].
  - now destruct A as [A | [A | A]].
  - now destruct A as [A | [A | A]].
  - destruct Q as [Q | [Q | [Q | Q]]]; destruct A as [A | [A | A]];
      destruct (ends_with_both _ _ _ Q A) as [H | H]; discriminate H.
Qed.

(** The commands of the launcher are actions. *)
Lemma launcher_commands_are_actions (d : device_record) (serial ip : pyval) :
  is_action (disconnect_of d)
  /\ is_action (Adb ("adb connect " ++ fmt ip ++ ":5555"))
  /\ is_action (Adb ("adb -s " ++ fmt serial ++ " usb"))
  /\ is_action (Scrcpy (fmt serial)).
Proof.
  unfold disconnect_of. simpl. repeat split; eauto.
Qed.

(** A serial cannot turn a query into a command of the launcher. *)
Example disconnect_is_no_query :
  is_action (Adb "adb -s A shell getprop x disconnect")
  /\ ~ is_query (Adb "adb -s A shell getprop x disconnect").
Proof.
  assert (A : is_action (Adb "adb -s A shell getprop x disconnect")).
  { left. now exists "A shell getprop x". }
  split; [exact A|]. intros Q. exact (is_query_not_action _ Q A).
Qed.

Lemma queries_no_action l :
  Forall is_query l -> Forall (fun e => ~ is_action e) l.
Proof. apply Forall_impl, is_query_not_action. Qed.

(** X12: a pass only asks.  However it ends, the command lines it has run
    are the flat listing first and then only the two listings, the three
    property queries and the address query, each for some serial; none
    of them is a command line of the launcher ([adb -s ... disconnect],
    [adb -s ... usb], [adb connect ...:5555], whatever stands for the
    dots), and the mirroring process is not started.  This is about the
    text of the command lines: a serial is put into them as the listing
    gives it, and what the shell and the bridge tool make of a serial
    with blanks or shell syntax in it is not modelled. *)
Theorem reconciliation_only_queries (st : state World) :
  exists l,
    journal (snd (update_device_map run st))
    = (journal st ++ Adb "adb devices" :: l)%list
    /\ Forall is_query l
    /\ Forall (fun e => ~ is_action e) (Adb "adb devices" :: l).
Proof.
  destruct (adb_command_journal run "adb devices" st) as (out & st1 & E & J).
  unfold update_device_map, bind at 1. rewrite E.
  match goal with
  | |- context [snd (?k st1)] =>
      assert (H : logs is_query k)
  end.
  { pose proof queries_reconcile_lines. logs_queries. }
  destruct (H st1) as (l & El & Fl). exists l.
  split; [now rewrite El, J, <- app_assoc|].
  split; [exact Fl|].
  apply queries_no_action. constructor; [|exact Fl]. now left.
Qed.

Lemma logs_logs_ok (A : Type) P (m : M World A) : logs P m -> logs_ok P m.
Proof.
  intros H st a st' E. destruct (H st) as (l & El & Fl).
  rewrite E in El. now exists l.
Qed.

Lemma logs_ok_bind (A B : Type) P (m : M World A) (k : A -> M World B) :
  logs_ok P m -> (forall a, logs_ok P (k a)) -> logs_ok P (bind m k).
Proof.
  intros Hm Hk st b st'. unfold bind.
  destruct (m st) as [[a|e] st1] eqn:E; [|discriminate].
  intros Ek. destruct (Hm st a st1 E) as (l1 & E1 & F1).
  destruct (Hk a st1 b st' Ek) as (l2 & E2 & F2).
  exists (l1 ++ l2)%list.
  split; [now rewrite E2, E1, app_assoc | now apply Forall_app].
Qed.

Lemma logs_ok_never (A : Type) P (m : M World A) :
  ensures m (fun _ => False) -> logs_ok P m.
Proof. intros H st a st' E. destruct (H st a st' E). Qed.

Lemma launch_never_returns devices choice :
  ensures (launch run devices choice) (fun _ => False).
Proof.
  unfold launch.
  eapply ensures_bind; [apply ensures_any|]. intros d _.
  eapply ensures_bind; [apply ensures_any|]. intros _ _.
  eapply ensures_bind; [apply ensures_any|]. intros serial _.
  eapply ensures_bind; [apply ensures_any|]. intros c _.
  eapply ensures_bind; [apply ensures_any|]. intros _ _.
  eapply ensures_bind; [apply ensures_any|]. intros _ _.
  apply ensures_raise.
Qed.

Lemma queries_authorized serial : logs is_query (is_device_authorized run serial).
Proof. unfold is_device_authorized. logs_queries. Qed.

Lemma queries_menu pending devices : logs is_query (menu run pending devices).
Proof.
  pose proof queries_authorized.
  induction pending as [|line rest IH]; simpl; unfold select; logs_queries.
Qed.

Lemma queries_display_device_menu devices :
  logs is_query (display_device_menu run devices).
Proof. intros st. apply queries_menu. Qed.

Lemma main_logs_ok : logs_ok is_query (main run).
Proof.
  apply (@logs_ok_bind _ _ is_query).
  - apply logs_logs_ok, queries_update_device_map.
  - intros _. apply logs_ok_bind; [apply logs_logs_ok, logs_load|].
    intros device_map.
    apply logs_ok_bind; [apply logs_logs_ok, logs_lift|].
    intros [|d devices]; [apply logs_logs_ok, logs_ret|].
    apply logs_ok_bind; [apply logs_logs_ok, queries_display_device_menu|].
    intros choice. destruct (choice =? 0)%Z.
    + apply logs_logs_ok, logs_ret.
    + apply logs_ok_never, launch_never_returns.
Qed.

(** X13: when the program returns normally (no device is connected, 0 was
    chosen, or the chosen device is not authorized any more), every
    command line it ran is one of the two listings, the three property
    queries and the address query, each for some serial; none of them is
    a command line of the launcher ([adb -s ... disconnect],
    [adb -s ... usb], [adb connect ...:5555]) and the mirroring process
    was not started.  As for a pass, this is about the text of the
    command lines. *)
Theorem main_returns_after_queries_only (st st' : state World) :
  main run st = (Ok tt, st') ->
  exists l,
    journal st' = (journal st ++ l)%list
    /\ Forall is_query l
    /\ Forall (fun e => ~ is_action e) l.
Proof.
  intros H. destruct (main_logs_ok st H) as (l & El & Fl).
  exists l. split; [exact El|]. split; [exact Fl|].
  exact (queries_no_action Fl).
Qed.

(** ** The launcher *)

Lemma logs_weaken (A : Type) (P Q : event -> Prop) (m : M World A) :
  (forall e, P e -> Q e) -> logs P m -> logs Q m.
Proof.
  intros HPQ H st. destruct (H st) as (l & El & Fl). exists l.
  split; [assumption|]. eapply Forall_impl; eauto.
Qed.

Lemma is_query_adb e : is_query e -> is_adb e.
Proof. now destruct e. Qed.

Lemma adb_disconnect_others devices d :
  logs is_adb (disconnect_others run devices d).
Proof.
  induction devices as [|x rest IH]; simpl; [apply logs_ret|].
  apply logs_bind; [|intros _; exact IH].
  destruct (negb (dict_eqb x d)); [|apply logs_ret].
  apply logs_bind; [apply logs_lift|]. intros serial.
  apply logs_bind; [apply logs_lift|]. intros _.
  apply logs_bind; [now apply logs_adb | intros _; apply logs_ret].
Qed.

Lemma ends_of_logs (A : Type) d (m : M World A) :
  logs is_adb m -> ends_mirroring d m.
Proof.
  intros H st. destruct (H st) as (l & El & Fl). exists l.
  split; [assumption | now left].
Qed.

Lemma ends_bind (A B : Type) d (m : M World A) (k : A -> M World B) :
  logs is_adb m -> (forall a, ends_mirroring d (k a)) ->
  ends_mirroring d (bind m k).
Proof.
  intros Hm Hk st. destruct (Hm st) as (l1 & E1 & F1). unfold bind.
  destruct (m st) as [[a|e] st1]; simpl in *.
  - destruct (Hk a st1) as (l2 & E2 & M2). exists (l1 ++ l2)%list.
    split; [now rewrite E2, E1, app_assoc|].
    destruct M2 as [F2 | (l' & serial & -> & F' & Hs & Hr)].
    + left. now apply Forall_app.
    + right. exists (l1 ++ l')%list, serial.
      repeat split; [now rewrite app_assoc | now apply Forall_app
                    | assumption | assumption].
  - exists l1. split; [assumption | now left].
Qed.

Lemma ends_scrcpy d serial :
  getitem d "serial" = Ok serial ->
  ends_mirroring d (bind (@scrcpy World serial)
                         (fun _ => @raise World unit SystemExit)).
Proof.
  intros Hs st. destruct serial as [|s]; simpl.
  - exists []. split; [now rewrite app_nil_r | now left].
  - exists [Scrcpy s]. split; [reflexivity|]. right.
    exists [], s. repeat split; auto.
Qed.

Lemma ends_lift (A B : Type) d (r : result A) (k : A -> M World B) :
  (forall a, r = Ok a -> ends_mirroring d (k a)) ->
  ends_mirroring d (bind (lift r) k).
Proof.
  intros H st. destruct r as [a|e].
  - exact (H a eq_refl st).
  - exists []. split; [now rewrite app_nil_r | now left].
Qed.

(** X14: once a device is chosen the program does not come back: the
    launcher always ends with an exception, and what it runs is bridge
    commands only, or bridge commands followed by one start of the
    mirroring process, for the serial of the chosen record, after which
    it ends with [SystemExit]. *)
Theorem launch_mirrors_last devices choice (st : state World) :
  (exists e, fst (launch run devices choice st) = Raise e)
  /\ forall d,
      py_item devices (choice - 1) = Ok d ->
      exists l,
        journal (snd (launch run devices choice st)) = (journal st ++ l)%list
        /\ mirrors_last d l (fst (launch run devices choice st)).
Proof.
  split.
  - pose proof (launch_never_returns devices choice st) as H.
    destruct (launch run devices choice st) as [[u|e] st'].
    + destruct (H u st' eq_refl).
    + now exists e.
  - intros d Hd.
    assert (H : ends_mirroring d (launch run devices choice));
      [|exact (H st)].
    unfold launch. apply ends_lift. intros d0 Hd0.
    rewrite Hd in Hd0. injection Hd0 as <-.
    apply ends_bind; [apply adb_disconnect_others|]. intros _.
    apply ends_lift. intros serial Es.
    apply ends_bind;
      [eapply logs_weaken; [apply is_query_adb | apply queries_connection_type]|].
    intros c. apply ends_bind.
    + destruct (c =? "wifi").
      * apply logs_bind; [apply logs_lift|]. intros ip.
        apply logs_bind; [now apply logs_adb | intros _; apply logs_ret].
      * destruct (c =? "usb"); [|apply logs_ret].
        apply logs_bind; [now apply logs_adb | intros _; apply logs_ret].
    + intros _. now apply ends_scrcpy.
Qed.

(** ** The devices offered by the menu *)

Lemma getitem_field d k :
  getitem d k = match field d k with
                | Some v => Ok v
                | None => Raise (KeyError k)
                end.
Proof. reflexivity. Qed.

(** X15: the devices offered are the records whose status is [device], in
    the order of the registry; building that list raises [KeyError] on
    [status] exactly when some record, connected or not, has no status
    key. *)
Theorem connected_keeps_devices r :
  (forall l, connected r = Ok l <->
     (forall d, In d r -> field d "status" <> None)
     /\ l = filter (fun d => pyval_eqb (get d "status") (PyStr "device")) r)
  /\ (connected r = Raise (KeyError "status") <->
      exists d, In d r /\ field d "status" = None).
Proof.
  induction r as [|d rest [IH1 IH2]]; simpl.
  - split.
    + intros l. split.
      * intros [= <-]. split; [now intros d []|reflexivity].
      * now intros [_ ->].
    + split; [discriminate|]. now intros (d & [] & _).
  - rewrite getitem_field, get_field.
    destruct (field d "status") as [v|] eqn:E; simpl.
    + destruct (connected rest) as [kept|e] eqn:C; simpl.
      * destruct (proj1 (IH1 kept) eq_refl) as [Hall ->]. split.
        { intros l. split.
          - intros [= <-]. split; [|reflexivity].
            intros d0 [<- | Hin]; [congruence | now apply Hall].
          - now intros [_ ->]. }
        split; [discriminate|].
        intros (d0 & [<- | Hin] & Hn); [congruence|].
        now destruct (Hall d0 Hin).
      * split.
        { intros l. split; [discriminate|]. intros [Hall _].
          assert (H : @Raise (list device_record) e
                      = Ok (filter (fun d => pyval_eqb (get d "status")
                                                        (PyStr "device")) rest)).
          { apply (proj2 (IH1 _)). split; [|reflexivity]. intros d0 Hin.
            apply Hall. now right. }
          discriminate H. }
        split.
        { intros [= ->]. destruct (proj1 IH2 eq_refl) as (d0 & Hin & Hn).
          exists d0. auto. }
        intros (d0 & [<- | Hin] & Hn); [congruence|].
        apply (proj2 IH2). eauto.
    + split.
      * intros l. split; [discriminate|]. intros [Hall _].
        now destruct (Hall d (or_introl eq_refl)).
      * split; [|reflexivity]. intros _. exists d. auto.
Qed.

Lemma print_listing_serials devices :
  (print_listing devices = Ok tt <->
   forall d, In d devices -> field d "serial" <> None)
  /\ (print_listing devices = Raise (KeyError "serial") <->
      exists d, In d devices /\ field d "serial" = None).
Proof.
  induction devices as [|d rest [IH1 IH2]]; simpl.
  - split; split.
    + now intros _ d [].
    + reflexivity.
    + discriminate.
    + now intros (d & [] & _).
  - unfold device_label. rewrite !getitem_field.
    destruct (field d "serial") as [v|] eqn:E.
    + assert (R : (_ <~ (if truthy (get d "name") then Ok (get d "name")
                         else if truthy (get d "model") then Ok (get d "model")
                              else Ok v);;
                   _ <~ Ok v;; print_listing rest) = print_listing rest)
        by (now destruct (truthy (get d "name")), (truthy (get d "model"))).
      rewrite R. split.
      * rewrite IH1. split.
        { intros H d0 [<- | Hin]; [congruence | now apply H]. }
        intros H d0 Hin. apply H. now right.
      * rewrite IH2. split.
        { intros (d0 & Hin & Hn). exists d0. auto. }
        intros (d0 & [<- | Hin] & Hn); [congruence|]. eauto.
    + assert (R : (_ <~ (if truthy (get d "name") then Ok (get d "name")
                         else if truthy (get d "model") then Ok (get d "model")
                              else @Raise pyval (KeyError "serial"));;
                   _ <~ @Raise pyval (KeyError "serial");; print_listing rest)
                  = Raise (KeyError "serial"))
        by (now destruct (truthy (get d "name")), (truthy (get d "model"))).
      rewrite R. split.
      * split; [discriminate|]. intros H.
        now destruct (H d (or_introl eq_refl)).
      * split; [|reflexivity]. intros _. exists d. auto.
Qed.

(** X16: the menu can be shown exactly when every listed record has a
    serial key, whatever its name and model; when one has none the menu
    raises [KeyError] on [serial] before it reads anything, leaving the
    typed lines and the journal as they were. *)
Theorem menu_needs_serials devices :
  (print_listing devices = Ok tt <->
   forall d, In d devices -> field d "serial" <> None)
  /\ ((exists d, In d devices /\ field d "serial" = None) ->
      forall st : state World,
        display_device_menu run devices st = (Raise (KeyError "serial"), st)).
Proof.
  destruct (print_listing_serials devices) as [H1 H2].
  split; [exact H1|]. intros Hex st. apply H2 in Hex.
  unfold display_device_menu.
  destruct (stdin st); simpl; unfold bind, lift; now rewrite Hex.
Qed.

(** ** The address of a device *)

Lemma split_ws_fields s :
  Forall (fun t => any_char is_space t = false) (split_ws s).
Proof.
  induction s as [|c s IH]; simpl; [constructor|].
  destruct (is_space c) eqn:Ec; [exact IH|].
  destruct s as [|c' s']; [repeat constructor; simpl; now rewrite Ec|].
  destruct (is_space c') eqn:Ec'.
  - constructor; [simpl; now rewrite Ec | exact IH].
  - destruct (split_ws (String c' s')) as [|h t];
      [repeat constructor; simpl; now rewrite Ec|].
    inversion IH as [|? ? Hh Ht]; subst.
    constructor; [simpl; now rewrite Ec, Hh | exact Ht].
Qed.

Lemma split_on_head sep p s :
  any_char p s = false ->
  any_char p (hd "" (split_on sep s)) = false.
Proof.
  induction s as [|c s IH]; simpl; [reflexivity|].
  intros H. apply orb_false_iff in H. destruct H as [Hc Hs].
  destruct (Ascii.eqb c sep); [reflexivity|].
  specialize (IH Hs).
  destruct (split_on sep s) as [|h t]; simpl in *; now rewrite Hc.
Qed.

Lemma split_on_head_no_sep sep s :
  any_char (Ascii.eqb sep) (hd "" (split_on sep s)) = false.
Proof.
  induction s as [|c s IH]; simpl; [reflexivity|].
  destruct (Ascii.eqb c sep) eqn:E; [reflexivity|].
  destruct (split_on sep s) as [|h t]; simpl in *;
    rewrite Ascii.eqb_sym, E; [reflexivity | exact IH].
Qed.

Lemma split_on_nonempty sep s : split_on sep s <> [].
Proof.
  destruct s as [|c s]; simpl; [discriminate|].
  destruct (Ascii.eqb c sep); [discriminate|].
  destruct (split_on sep s); discriminate.
Qed.

Lemma split_on_prefix sep a x :
  any_char (Ascii.eqb sep) a = false ->
  hd "" (split_on sep (a ++ String sep x)) = a.
Proof.
  induction a as [|c a IH]; simpl.
  - now rewrite Ascii.eqb_refl.
  - intros H. apply orb_false_iff in H. destruct H as [Hc Ha].
    rewrite Ascii.eqb_sym, Hc. specialize (IH Ha).
    destruct (split_on sep (a ++ String sep x)) as [|h t] eqn:E;
      [now destruct (split_on_nonempty _ _ E)|].
    simpl in *. now rewrite IH.
Qed.

Lemma address_of_shape out a :
  address_of out = Ok a ->
  any_char is_space a = false /\ any_char (Ascii.eqb "/") a = false.
Proof.
  unfold address_of, item. pose proof (split_ws_fields out) as F.
  destruct (split_ws out) as [|t0 [|t1 ts]]; simpl; try discriminate.
  inversion F as [|? ? _ F1]; subst. inversion F1 as [|? ? H1 _]; subst.
  pose proof (split_on_head "/" is_space t1 H1) as Hs.
  pose proof (split_on_head_no_sep "/" t1) as Hn.
  destruct (split_on "/" t1) as [|h t]; [discriminate|].
  intros [= <-]. now split.
Qed.

(** X17: the address query gives no address exactly when it fails or
    prints nothing; an address it gives holds no blank and no slash; and
    when the second word of the output is [addr/prefix] the address is
    [addr], whatever the first word is. *)
Theorem device_ip_shape serial (st : state World) :
  (fst (get_device_ip run serial st) = Ok None <->
   truthy_text (ip_output run serial st) = false)
  /\ (forall a, fst (get_device_ip run serial st) = Ok (Some a) ->
        any_char is_space a = false /\ any_char (Ascii.eqb "/") a = false)
  /\ (forall word addr prefix others,
        split_ws (text_of (ip_output run serial st))
        = word :: (addr ++ String "/" prefix) :: others ->
        any_char (Ascii.eqb "/") addr = false ->
        fst (get_device_ip run serial st) = Ok (Some addr)).
Proof.
  unfold get_device_ip, ip_output, bind, adb_command.
  destruct (run (ip_query serial) (world st)) as [out w]; simpl.
  destruct (truthy_text (option_map strip out)) eqn:T; simpl.
  - unfold lift.
    destruct (address_of (text_of (option_map strip out))) as [a|e] eqn:A;
      simpl.
    + split; [split; discriminate|]. split.
      * intros a0 [= <-]. exact (address_of_shape _ A).
      * intros word addr prefix others Hw Hn. unfold address_of, item in A.
        rewrite Hw in A. simpl in A.
        pose proof (split_on_prefix "/" addr prefix Hn) as Hp.
        destruct (split_on "/" (addr ++ String "/" prefix)) as [|h t];
          [discriminate|].
        simpl in *. congruence.
    + split; [split; discriminate|]. split; [discriminate|].
      intros word addr prefix others Hw Hn. unfold address_of, item in A.
      rewrite Hw in A. simpl in A.
      destruct (split_on "/" (addr ++ String "/" prefix)) as [|h t] eqn:E;
        [now destruct (split_on_nonempty _ _ E) | discriminate].
  - split; [split; reflexivity|]. split; [discriminate|].
    intros word addr prefix others Hw _.
    destruct (option_map strip out) as [[|c t]|]; simpl in *; discriminate.
Qed.

End More.

(** ** Instances on the scripted bridges *)

Lemma device_info_is_complete_witness :
  exists o,
    get_device_info (scripted wired_bridge) "ABC123" (start None [])
    = (Ok o,
       mkState tt
         [Adb (getprop_query "ABC123" "ro.product.model");
          Adb (getprop_query "ABC123" "ro.product.device");
          Adb (getprop_query "ABC123" "ro.serialno");
          Adb "adb devices -l"] None [])
    /\ (o = None <->
        truthy_text (Some "Pixel7") && truthy_text (Some "panther")
        && truthy_text (Some "ABC123") = false).
Proof.
  refine (proj1 (proj2 (proj2
            (@device_info_is_complete unit (scripted wired_bridge) "ABC123"
               (Some "Pixel7") (Some "panther") (Some "ABC123") "usb"
               (start None []) _ _ _ _ eq_refl eq_refl eq_refl eq_refl))) _).
  discriminate.
Defined.

Lemma update_known_fills_only_witness :
  (forall k, In k ["model"; "device_type"; "ip_address"] ->
             truthy (get my_phone k) = true ->
             field [("name", PyStr "MyPhone"); ("serial", PyStr "ABC123");
                    ("ip_address", PyStr ""); ("status", PyStr "device");
                    ("model", PyStr "Pixel7"); ("device_type", PyStr "panther")]
                   k
             = field my_phone k)
  /\ (forall k, field my_phone k <> None ->
                field [("name", PyStr "MyPhone"); ("serial", PyStr "ABC123");
                       ("ip_address", PyStr ""); ("status", PyStr "device");
                       ("model", PyStr "Pixel7");
                       ("device_type", PyStr "panther")] k <> None)
  /\ field [("name", PyStr "MyPhone"); ("serial", PyStr "ABC123");
            ("ip_address", PyStr ""); ("status", PyStr "device");
            ("model", PyStr "Pixel7"); ("device_type", PyStr "panther")]
           "model" <> None
  /\ field [("name", PyStr "MyPhone"); ("serial", PyStr "ABC123");
            ("ip_address", PyStr ""); ("status", PyStr "device");
            ("model", PyStr "Pixel7"); ("device_type", PyStr "panther")]
           "device_type" <> None
  /\ field [("name", PyStr "MyPhone"); ("serial", PyStr "ABC123");
            ("ip_address", PyStr ""); ("status", PyStr "device");
            ("model", PyStr "Pixel7"); ("device_type", PyStr "panther")]
           "status" = Some (PyStr "device").
Proof.
  eapply (@update_known_fills_only unit (scripted wired_bridge) "ABC123"
            "device" my_phone (start None [])).
  reflexivity.
Defined.

Lemma serials_stay_unique_witness :
  NoDup (map serial_of
           (registry_of
              (snd (update_device_map (scripted wired_bridge)
                      (start (Some [usb_record "Desk" "USB1" "Pixel7" "panther"])
                             []))))).
Proof.
  eapply (@serials_stay_unique unit (scripted wired_bridge)
            (start (Some [usb_record "Desk" "USB1" "Pixel7" "panther"]) [])).
  - reflexivity.
  - repeat constructor. intros [].
Defined.

Lemma appended_records_are_complete_witness : complete (abc123 PyNone).
Proof.
  eapply (@appended_records_are_complete unit (scripted wired_bridge)
            (start (Some []) []) _ 0 (abc123 PyNone)).
  - reflexivity.
  - simpl. lia.
  - reflexivity.
Defined.

Lemma pass_without_devices_witness :
  update_device_map (scripted no_device_bridge) (start (Some [my_phone]) [])
  = (Ok tt, mkState tt [Adb "adb devices"] (Some [my_phone]) []).
Proof.
  apply (@pass_without_devices unit (scripted no_device_bridge)
           (start (Some [my_phone]) [])).
  - repeat constructor.
  - intros d [<- | []]. discriminate.
Defined.

Lemma menu_choice_in_range_witness :
  (0 <= 1 <= Z.of_nat (length [abc123 (PyStr "")]))%Z
  /\ (1%Z <> 0%Z -> exists d, py_item [abc123 (PyStr "")] (1 - 1) = Ok d).
Proof.
  eapply (@menu_choice_in_range unit (scripted wired_bridge)
            [abc123 (PyStr "")] (start None ["1"])).
  reflexivity.
Defined.

Lemma menu_checks_the_choice_witness :
  display_device_menu (scripted wired_bridge) [abc123 (PyStr "")]
    (start None ["1"])
  = (Ok 1%Z, mkState tt [Adb "adb devices"] None []).
Proof.
  rewrite (@menu_checks_the_choice unit (scripted wired_bridge)
             [abc123 (PyStr "")] "1" [] 1 (abc123 (PyStr ""))
             (start None ["1"]) eq_refl eq_refl);
    [reflexivity | simpl; lia | reflexivity].
Defined.

Lemma main_returns_after_queries_only_witness :
  exists l,
    [Adb "adb devices"; Adb "adb devices";
     Adb "adb -s ABC123 shell getprop ro.product.model";
     Adb "adb -s ABC123 shell getprop ro.product.device";
     Adb "adb -s ABC123 shell getprop ro.serialno";
     Adb "adb devices -l"; Adb "adb devices"]
    = ([] ++ l)%list
    /\ Forall is_query l
    /\ Forall (fun e => ~ is_action e) l.
Proof.
  exact (@main_returns_after_queries_only unit (scripted wired_bridge)
           (start None ["0"])
           (mkState tt
              [Adb "adb devices"; Adb "adb devices";
               Adb "adb -s ABC123 shell getprop ro.product.model";
               Adb "adb -s ABC123 shell getprop ro.product.device";
               Adb "adb -s ABC123 shell getprop ro.serialno";
               Adb "adb devices -l"; Adb "adb devices"]
              (Some [abc123 PyNone]) [])
           eq_refl).
Defined.

Lemma launch_mirrors_last_witness :
  exists l,
    journal (snd (launch (scripted two_wired_bridge) two_wired_registry 1
                    (start None [])))
    = ([] ++ l)%list
    /\ mirrors_last (usb_record "Desk" "USB1" "Pixel7" "panther") l
         (fst (launch (scripted two_wired_bridge) two_wired_registry 1
                 (start None []))).
Proof.
  exact (proj2 (@launch_mirrors_last unit (scripted two_wired_bridge)
                  two_wired_registry 1 (start None []))
           (usb_record "Desk" "USB1" "Pixel7" "panther") eq_refl).
Defined.
